(** * Spotify wallpaper server: token lifecycle and playback projection

    A shallow embedding of [server.js] (the Express application that
    authenticates against Spotify, caches the credential and serves
    [/now-playing]) together with the properties of its OAuth callback,
    its refresh decision and its canvas lookup.

    [server.js] carries two generations of the same program one after the
    other; the embedding follows the first one (lines 1-240), the one that
    reports [auth_possible].

    Conventions of the embedding:
    - JavaScript values are the inductive type [value]; objects are
      association lists in insertion order, as [JSON.stringify] prints them;
    - strings are byte strings (a JavaScript string in UTF-8);
    - numbers are the integers of a double, or [NaN];
    - what is thrown is an [Error] object, seen through its [name] and
      [message];
    - handlers are written in a state-and-exception monad [js] over the
      module-level variables of [server.js], the credentials of the
      [spotifyApi] object and the outside world; an [await] is the only
      place where the outside world moves;
    - a run also records its effects: each call to the provider with what
      was sent and what came back, and each line written to the console.

    The first half of the file holds the definitions: the embedding of the
    handlers, their functional descriptions, and a concrete platform to run
    them on.  The second half holds the lemmas and theorems. *)

From Stdlib Require Import ZArith List String Ascii Bool Lia.
From Stdlib Require Import DecimalString.
Import ListNotations.
Local Open Scope string_scope.
Local Open Scope Z_scope.
Set Warnings "-register-all".

(** ** JavaScript values *)

Module JS.

(** A double restricted to what the server computes with: an integer
    (milliseconds, seconds, a status code) or [NaN]. *)
Inductive number : Type :=
| Int (z : Z)
| NaN.

Inductive value : Type :=
| VUndefined
| VNull
| VBool (b : bool)
| VNum (n : number)
| VStr (s : string)
| VArr (elems : list value)
| VObj (props : list (string * value)).

(** What a [throw] carries: an [Error] object, seen through the two
    properties [Error.prototype.toString] reads. *)
Record Error : Type := mkError { name : string; message : string }.

(** The completion of an evaluation that may throw. *)
Inductive completion (A : Type) : Type :=
| Normal (a : A)
| Thrown (e : Error).
Arguments Normal {A} a.
Arguments Thrown {A} e.

Definition TypeError (msg : string) : Error := mkError "TypeError" msg.

(** *** Arithmetic and comparison on numbers *)

Definition add (a b : number) : number :=
  match a, b with
  | Int x, Int y => Int (x + y)
  | _, _ => NaN
  end.

Definition sub (a b : number) : number :=
  match a, b with
  | Int x, Int y => Int (x - y)
  | _, _ => NaN
  end.

Definition mul (a b : number) : number :=
  match a, b with
  | Int x, Int y => Int (x * y)
  | _, _ => NaN
  end.

(** [a < b]: false as soon as one side is [NaN]. *)
Definition lt (a b : number) : bool :=
  match a, b with
  | Int x, Int y => x <? y
  | _, _ => false
  end.

(** *** Truthiness, [||] and [!] *)

Definition truthy (v : value) : bool :=
  match v with
  | VUndefined | VNull => false
  | VBool b => b
  | VNum (Int z) => negb (z =? 0)
  | VNum NaN => false
  | VStr s => negb (s =? EmptyString)%string
  | VArr _ | VObj _ => true
  end.

(** [a || b] *)
Definition or_else (a b : value) : value := if truthy a then a else b.

(** [a && b] *)
Definition and_then (a b : value) : value := if truthy a then b else a.

(** *** ToString *)

(** The digits of an integer, as [Number::toString] prints those below
    [10^21]. *)
Definition decimal (z : Z) : string := NilZero.string_of_int (Z.to_int z).

Definition number_to_string (n : number) : string :=
  match n with
  | Int z => decimal z
  | NaN => "NaN"
  end.

Fixpoint join (sep : string) (l : list string) : string :=
  match l with
  | [] => EmptyString
  | [s] => s
  | s :: rest => s ++ sep ++ join sep rest
  end.

(** [String(v)], also what a template literal applies to a hole.
    [Array.prototype.join] prints [null] and [undefined] elements as the
    empty string. *)
Fixpoint ToString (v : value) : string :=
  match v with
  | VUndefined => "undefined"
  | VNull => "null"
  | VBool true => "true"
  | VBool false => "false"
  | VNum n => number_to_string n
  | VStr s => s
  | VArr elems =>
      join "," (map (fun e => match e with
                              | VUndefined | VNull => EmptyString
                              | _ => ToString e
                              end) elems)
  | VObj _ => "[object Object]"
  end.

(** [String(err)] for an [Error] object: [Error.prototype.toString]. *)
Definition error_to_string (e : Error) : string :=
  if (name e =? EmptyString)%string then message e
  else if (message e =? EmptyString)%string then name e
  else name e ++ ": " ++ message e.

(** *** Property access *)

Fixpoint lookup (k : string) (props : list (string * value)) : option value :=
  match props with
  | [] => None
  | (k', v) :: rest => if (k' =? k)%string then Some v else lookup k rest
  end.

(** [v[k]] or [v.k] on data: the own properties of an object; reading a
    property of [undefined] or [null] throws.  Inherited members
    ([constructor], [toString], the [length] of arrays and strings) are not
    data and are left out: the keys read here are field names of the
    provider's payload and track identifiers. *)
Definition get (v : value) (k : string) : completion value :=
  match v with
  | VUndefined =>
      Thrown (TypeError ("Cannot read properties of undefined (reading '" ++ k ++ "')"))
  | VNull =>
      Thrown (TypeError ("Cannot read properties of null (reading '" ++ k ++ "')"))
  | VObj props =>
      Normal (match lookup k props with Some x => x | None => VUndefined end)
  | _ => Normal VUndefined
  end.

(** [o.k = x] on an object literal built by the server: replaces the
    property in place or appends it. *)
Fixpoint assign (k : string) (x : value) (props : list (string * value))
  : list (string * value) :=
  match props with
  | [] => [(k, x)]
  | (k', v) :: rest =>
      if (k' =? k)%string then (k, x) :: rest else (k', v) :: assign k x rest
  end.

(** [s.startsWith(prefix)] *)
Definition startsWith (s p : string) : bool := String.prefix p s.

End JS.

Import JS.

(** ** The platform

    What [server.js] takes from Node and from its libraries.  The pure
    built-ins are the fields of [Runtime]; the outside world (clock, file
    system, the network behind [spotifyApi]) is a state of type [W] read
    through [World].  The synchronous calls ([Date.now], [fs.existsSync],
    [fs.readFileSync]) read the current world; a call that is awaited
    answers with a completion (a rejected promise is [Thrown]) and hands
    back the world as it is when the handler resumes. *)

Class Runtime : Type := {
  (** [process.env], after [dotenv.config()] *)
  process_env : string -> option string;
  (** the directory of [server.js] *)
  __dirname : string;
  path_join : list string -> string;
  (** throws [URIError] on a malformed escape *)
  decodeURIComponent : string -> completion string;
  (** throws [SyntaxError] *)
  JSON_parse : string -> completion value;
  (** the number a string converts to under [*] *)
  StringToNumber : string -> number
}.

Class World (W : Type) : Type := {
  Date_now : W -> Z;
  existsSync : W -> string -> bool;
  readFileSync : W -> string -> completion string;
  (** [spotifyApi.authorizationCodeGrant(code)] *)
  authorizationCodeGrant : value -> W -> completion value * W;
  (** [spotifyApi.refreshAccessToken()], which sends the refresh token the
      [spotifyApi] object holds *)
  refreshAccessToken : value -> W -> completion value * W;
  (** [spotifyApi.getMyCurrentPlaybackState()], which sends the access
      token the [spotifyApi] object holds *)
  getMyCurrentPlaybackState : value -> W -> completion value * W
}.

(** ** State, effects and the handler monad *)

(** The mutable state of the process: the two credentials kept inside
    [spotifyApi] and the two module-level variables. *)
Record Store : Type := mkStore {
  accessToken : value;
  refreshToken : value;
  REFRESH_TOKEN : value;
  ACCESS_TOKEN_EXPIRES_AT : number
}.

(** [let REFRESH_TOKEN = null], [let ACCESS_TOKEN_EXPIRES_AT = 0] and a
    [spotifyApi] constructed without tokens. *)
Definition initial_store : Store :=
  {| accessToken := VUndefined;
     refreshToken := VUndefined;
     REFRESH_TOKEN := VNull;
     ACCESS_TOKEN_EXPIRES_AT := Int 0 |}.

Inductive operation : Type :=
| OpCodeGrant
| OpRefresh
| OpPlaybackState.

(** What a handler does that is visible from outside: the calls to the
    provider, with the credential or code sent and the answer, and the
    lines written to the console. *)
Inductive effect : Type :=
| called (op : operation) (sent : value) (answer : completion value)
| console_log (args : list value)
| console_error (label : string) (e : Error).

Inductive response : Type :=
| send (status : Z) (body : string)
| json (status : Z) (body : value)
| redirect (location : string).

Record Machine (W : Type) : Type := mkMachine {
  store : Store;
  world : W;
  effects : list effect
}.
Arguments mkMachine {W} _ _ _.
Arguments store {W} _.
Arguments world {W} _.
Arguments effects {W} _.

Definition js (W A : Type) : Type := Machine W -> completion A * Machine W.

Definition ret {W A} (a : A) : js W A := fun m => (Normal a, m).

Definition throw {W A} (e : Error) : js W A := fun m => (Thrown e, m).

Definition bind {W A B} (c : js W A) (k : A -> js W B) : js W B :=
  fun m =>
    match c m with
    | (Normal a, m') => k a m'
    | (Thrown e, m') => (Thrown e, m')
    end.

(** [try { c } catch (e) { h e }] *)
Definition try_catch {W A} (c : js W A) (h : Error -> js W A) : js W A :=
  fun m =>
    match c m with
    | (Normal a, m') => (Normal a, m')
    | (Thrown e, m') => h e m'
    end.

(** A pure evaluation that may throw. *)
Definition lift {W A} (c : completion A) : js W A := fun m => (c, m).

Definition read {W A} (f : Store -> A) : js W A :=
  fun m => (Normal (f (store m)), m).

Definition write {W} (f : Store -> Store) : js W unit :=
  fun m => (Normal tt, mkMachine (f (store m)) (world m) (effects m)).

Definition observe {W A} (f : W -> A) : js W A :=
  fun m => (Normal (f (world m)), m).

Definition emit {W} (e : effect) : js W unit :=
  fun m => (Normal tt, mkMachine (store m) (world m) (effects m ++ [e])).

(** [await spotifyApi.op(...)]: the world answers and moves on; the call
    and its answer are recorded. *)
Definition await {W} (op : operation) (sent : value)
    (call : value -> W -> completion value * W) : js W value :=
  fun m =>
    let (answer, w') := call sent (world m) in
    (answer, mkMachine (store m) w' (effects m ++ [called op sent answer])).

Declare Scope js_scope.
Delimit Scope js_scope with js.
Notation "x <- c ;; k" := (bind c (fun x => k))
  (at level 61, c at next level, right associativity) : js_scope.
Notation "c ;; k" := (bind c (fun _ => k))
  (at level 61, right associativity) : js_scope.

(** The same sequencing for pure evaluations. *)
Definition and_next {A B} (c : completion A) (k : A -> completion B)
  : completion B :=
  match c with
  | Normal a => k a
  | Thrown e => Thrown e
  end.

Declare Scope completion_scope.
Delimit Scope completion_scope with completion.
Notation "x <-- c ;; k" := (and_next c (fun x => k))
  (at level 61, c at next level, right associativity) : completion_scope.

(** Running a handler on a store and a world, from an empty record of
    effects. *)
Definition run {W A} (h : js W A) (st : Store) (w : W)
  : completion A * Machine W :=
  h (mkMachine st w []).

Definition result {W A} (r : completion A * Machine W) : completion A := fst r.
Definition final {W A} (r : completion A * Machine W) : Store := store (snd r).
Definition trace {W A} (r : completion A * Machine W) : list effect :=
  effects (snd r).

(** ** The server *)

Section Server.

Context {RT : Runtime} {W : Type} {WD : World W}.

Local Open Scope js_scope.

(** [process.env.SPOTIFY_CLIENT_ID || null] and its sibling. *)
Definition env (k : string) : value :=
  match process_env k with
  | Some s => VStr s
  | None => VUndefined
  end.

Definition CLIENT_ID : value := or_else (env "SPOTIFY_CLIENT_ID") VNull.
Definition CLIENT_SECRET : value := or_else (env "SPOTIFY_CLIENT_SECRET") VNull.

(** *** Conversions used by the handlers *)

(** The operand conversion of [*]: an object goes through its string. *)
Definition ToNumber (v : value) : number :=
  match v with
  | VUndefined => NaN
  | VNull => Int 0
  | VBool true => Int 1
  | VBool false => Int 0
  | VNum n => n
  | VStr s => StringToNumber s
  | VArr _ | VObj _ => StringToNumber (ToString v)
  end.

(** [Date.now() + expiresIn * 1000] *)
Definition expiry (now : Z) (expiresIn : value) : number :=
  add (Int now) (mul (ToNumber expiresIn) (Int 1000)).

(** *** The [spotifyApi] credential accessors *)

Definition setAccessToken (v : value) : js W unit :=
  write (fun st => mkStore v (refreshToken st) (REFRESH_TOKEN st)
                     (ACCESS_TOKEN_EXPIRES_AT st)).

Definition setRefreshToken (v : value) : js W unit :=
  write (fun st => mkStore (accessToken st) v (REFRESH_TOKEN st)
                     (ACCESS_TOKEN_EXPIRES_AT st)).

Definition getAccessToken : js W value := read accessToken.

Definition set_REFRESH_TOKEN (v : value) : js W unit :=
  write (fun st => mkStore (accessToken st) (refreshToken st) v
                     (ACCESS_TOKEN_EXPIRES_AT st)).

Definition set_ACCESS_TOKEN_EXPIRES_AT (n : number) : js W unit :=
  write (fun st => mkStore (accessToken st) (refreshToken st)
                     (REFRESH_TOKEN st) n).

(** *** [refreshAccessTokenIfNeeded] (lines 155-168) *)

Definition refreshAccessTokenIfNeeded : js W unit :=
  try_catch
    (held <- read REFRESH_TOKEN ;;
     if negb (truthy held) then ret tt else
     now <- observe Date_now ;;
     expiresAt <- read ACCESS_TOKEN_EXPIRES_AT ;;
     if lt (Int now) (sub expiresAt (Int 30000)) then ret tt else
     setRefreshToken held ;;
     sent <- read refreshToken ;;
     data <- await OpRefresh sent refreshAccessToken ;;
     body <- lift (get data "body") ;;
     access <- lift (get body "access_token") ;;
     setAccessToken access ;;
     body <- lift (get data "body") ;;
     expiresIn <- lift (get body "expires_in") ;;
     now <- observe Date_now ;;
     set_ACCESS_TOKEN_EXPIRES_AT (expiry now expiresIn) ;;
     emit (console_log [VStr "Refreshed access token, expires in"; expiresIn; VStr "s"]))
    (fun e => emit (console_error "Failed to refresh token:" e)).

(** *** [GET /callback] (lines 73-100) *)

(** [req.query.<k>]: the parsed query string is always an object. *)
Definition query (q : list (string * value)) (k : string) : value :=
  match lookup k q with
  | Some v => v
  | None => VUndefined
  end.

Definition callback (q : list (string * value)) : js W response :=
  let code := query q "code" in
  if negb (truthy code) then ret (send 400 "Missing code") else
  try_catch
    (data <- await OpCodeGrant code authorizationCodeGrant ;;
     body <- lift (get data "body") ;;
     access <- lift (get body "access_token") ;;
     body <- lift (get data "body") ;;
     refresh <- lift (get body "refresh_token") ;;
     body <- lift (get data "body") ;;
     expiresIn <- lift (get body "expires_in") ;;
     setAccessToken access ;;
     setRefreshToken refresh ;;
     set_REFRESH_TOKEN refresh ;;
     now <- observe Date_now ;;
     set_ACCESS_TOKEN_EXPIRES_AT (expiry now expiresIn) ;;
     let rawState := or_else (query q "state") (VStr EmptyString) in
     redirectTo <-
       try_catch
         (decoded <- lift (decodeURIComponent (ToString rawState)) ;;
          if truthy (VStr decoded) && startsWith decoded "/"
          then ret decoded
          else ret "/"%string)
         (fun _ => ret "/"%string) ;;
     ret (redirect redirectTo))
    (fun err =>
       emit (console_error "Error exchanging code:" err) ;;
       ret (send 500 "Auth error")).

(** *** [GET /now-playing] (lines 170-230) *)

(** [!!(CLIENT_ID && CLIENT_SECRET)] *)
Definition authPossible : bool := truthy (and_then CLIENT_ID CLIENT_SECRET).

Definition not_authenticated : response :=
  json 401 (VObj [("error", VStr "Not authenticated. Visit /login");
                  ("auth_possible", VBool authPossible)]).

Definition no_session : response :=
  json 200 (VObj [("is_playing", VBool false); ("item", VNull)]).

(** [v === 204] *)
Definition is_204 (v : value) : bool :=
  match v with
  | VNum (Int z) => z =? 204
  | _ => false
  end.

(** [artists.map(a => a.name)] *)
Fixpoint names (elems : list value) : completion (list value) :=
  match elems with
  | [] => Normal []
  | a :: rest =>
      (n <-- get a "name" ;;
       ns <-- names rest ;;
       Normal (n :: ns))%completion
  end.

Definition map_names (artists : value) : completion value :=
  match artists with
  | VArr elems =>
      (ns <-- names elems ;; Normal (VArr ns))%completion
  | VUndefined =>
      Thrown (TypeError "Cannot read properties of undefined (reading 'map')")
  | VNull =>
      Thrown (TypeError "Cannot read properties of null (reading 'map')")
  | _ => Thrown (TypeError "item.artists.map is not a function")
  end.

(** The [item] of the response: the object literal of lines 187-195, or
    [null]. *)
Definition project_item (item : value) : completion value :=
  if negb (truthy item) then Normal VNull else
  (id <-- get item "id" ;;
   name <-- get item "name" ;;
   artists <-- get item "artists" ;;
   artist_names <-- map_names artists ;;
   album <-- get item "album" ;;
   album_name <-- get album "name" ;;
   album <-- get item "album" ;;
   images <-- get album "images" ;;
   duration <-- get item "duration_ms" ;;
   urls <-- get item "external_urls" ;;
   Normal (VObj [("id", id);
                 ("name", name);
                 ("artists", artist_names);
                 ("album", album_name);
                 ("album_images", images);
                 ("duration_ms", duration);
                 ("external_urls", urls)]))%completion.

(** [out.item], [out.item.id] and [out.item.canvas_url] on the response
    object. *)
Definition item_of (out : value) : value :=
  match out with
  | VObj props => query props "item"
  | _ => VUndefined
  end.

Definition id_of (item : value) : value :=
  match item with
  | VObj props => query props "id"
  | _ => VUndefined
  end.

Definition canvas_url_of (item : value) : value :=
  match item with
  | VObj props => query props "canvas_url"
  | _ => VUndefined
  end.

(** [out.item.canvas_url = url] *)
Definition set_canvas_url (out url : value) : value :=
  match out with
  | VObj props =>
      match query props "item" with
      | VObj item => VObj (assign "item" (VObj (assign "canvas_url" url item)) props)
      | _ => out
      end
  | _ => out
  end.

Definition canvasDir : string := path_join [__dirname; "public"; "canvas"]%string.
Definition mp4_of (id : value) : string :=
  path_join [canvasDir; ToString id ++ ".mp4"]%string.
Definition webm_of (id : value) : string :=
  path_join [canvasDir; ToString id ++ ".webm"]%string.
Definition mapFile : string := path_join [__dirname; "canvas.json"]%string.

(** The canvas lookup (lines 198-224): a local [.mp4], a local [.webm],
    then [canvas.json].  It returns the response object, with
    [canvas_url] set on its [item] when a canvas is found. *)
Definition canvas_detection (out : value) : js W value :=
  try_catch
    (if truthy (item_of out) && truthy (id_of (item_of out)) then
       let id := id_of (item_of out) in
       mp4 <- observe (fun w => existsSync w (mp4_of id)) ;;
       if (mp4 : bool) then
         ret (set_canvas_url out (VStr ("/canvas/" ++ ToString id ++ ".mp4")))
       else
         webm <- observe (fun w => existsSync w (webm_of id)) ;;
         if (webm : bool) then
           ret (set_canvas_url out (VStr ("/canvas/" ++ ToString id ++ ".webm")))
         else
           present <- observe (fun w => existsSync w mapFile) ;;
           if (present : bool) then
             try_catch
               (text <- bind (observe (fun w => readFileSync w mapFile)) lift ;;
                mapping <- lift (JSON_parse text) ;;
                if negb (truthy mapping) then ret out else
                entry <- lift (get mapping (ToString id)) ;;
                if truthy entry then ret (set_canvas_url out entry) else ret out)
               (fun e =>
                  emit (console_error "Failed to parse canvas.json" e) ;;
                  ret out)
           else ret out
     else ret out)
    (fun e =>
       emit (console_error "canvas detection error" e) ;;
       ret out).

Definition now_playing : js W response :=
  try_catch
    (refreshAccessTokenIfNeeded ;;
     token <- getAccessToken ;;
     if negb (truthy token) then ret not_authenticated else
     data <- await OpPlaybackState token getMyCurrentPlaybackState ;;
     body <- lift (get data "body") ;;
     if negb (truthy body) then ret no_session else
     status <- lift (get data "status") ;;
     if is_204 status then ret no_session else
     item <- lift (get body "item") ;;
     progress <- lift (get body "progress_ms") ;;
     playing <- lift (get body "is_playing") ;;
     let progress_ms := or_else progress (VNum (Int 0)) in
     let is_playing := or_else playing (VBool false) in
     timestamp <- observe Date_now ;;
     projected <- lift (project_item item) ;;
     let out := VObj [("is_playing", is_playing);
                      ("progress_ms", progress_ms);
                      ("timestamp", VNum (Int timestamp));
                      ("item", projected)] in
     out <- canvas_detection out ;;
     ret (json 200 out))
    (fun err =>
       emit (console_error "now-playing error" err) ;;
       ret (json 500 (VObj [("error", VStr "failed");
                            ("details", VStr (error_to_string err))]))).

(** *** Functional descriptions

    What each handler does, as a function of the store and the world it
    starts from.  The handlers above are the embedding; the lemmas of the
    second half relate them to these descriptions. *)

(** The two reads a refresh makes of the provider's answer. *)
Definition refresh_payload (data : value) : completion (value * value) :=
  (body <-- get data "body" ;;
   access <-- get body "access_token" ;;
   body <-- get data "body" ;;
   expiresIn <-- get body "expires_in" ;;
   Normal (access, expiresIn))%completion.

(** The store after a refresh that succeeded, and after one that failed. *)
Definition refreshed (st : Store) (access : value) (expiresAt : number) : Store :=
  mkStore access (REFRESH_TOKEN st) (REFRESH_TOKEN st) expiresAt.

Definition resynced (st : Store) : Store :=
  mkStore (accessToken st) (REFRESH_TOKEN st) (REFRESH_TOKEN st)
    (ACCESS_TOKEN_EXPIRES_AT st).

(** The refresh decision: a refresh token is held and the clock is not
    before [ACCESS_TOKEN_EXPIRES_AT - 30000]. *)
Definition due (st : Store) (w : W) : bool :=
  truthy (REFRESH_TOKEN st)
  && negb (lt (Int (Date_now w)) (sub (ACCESS_TOKEN_EXPIRES_AT st) (Int 30000))).

Definition refresh_outcome (st : Store) (w : W) : Store * W * list effect :=
  if due st w then
    let sent := REFRESH_TOKEN st in
    let (answer, w') := refreshAccessToken sent w in
    match (data <-- answer ;; refresh_payload data)%completion with
    | Normal (access, expiresIn) =>
        (refreshed st access (expiry (Date_now w') expiresIn), w',
         [called OpRefresh sent answer;
          console_log [VStr "Refreshed access token, expires in"; expiresIn; VStr "s"]])
    | Thrown e =>
        (resynced st, w',
         [called OpRefresh sent answer;
          console_error "Failed to refresh token:" e])
    end
  else (st, w, []).

(** The three reads the callback makes of the provider's answer. *)
Definition grant_payload (data : value) : completion (value * value * value) :=
  (body <-- get data "body" ;;
   access <-- get body "access_token" ;;
   body <-- get data "body" ;;
   refresh <-- get body "refresh_token" ;;
   body <-- get data "body" ;;
   expiresIn <-- get body "expires_in" ;;
   Normal (access, refresh, expiresIn))%completion.

(** The path the callback redirects to, from [req.query.state]. *)
Definition return_path (state : value) : string :=
  match decodeURIComponent (ToString (or_else state (VStr EmptyString))) with
  | Normal decoded =>
      if negb (decoded =? EmptyString)%string && startsWith decoded "/"
      then decoded else "/"%string
  | Thrown _ => "/"%string
  end.

(** The response object before the canvas lookup; [None] when the
    provider reports no session. *)
Definition project (data : value) (now : Z) : completion (option value) :=
  (body <-- get data "body" ;;
   if negb (truthy body) then Normal None else
   status <-- get data "status" ;;
   if is_204 status then Normal None else
   item <-- get body "item" ;;
   progress <-- get body "progress_ms" ;;
   playing <-- get body "is_playing" ;;
   projected <-- project_item item ;;
   Normal (Some (VObj [("is_playing", or_else playing (VBool false));
                       ("progress_ms", or_else progress (VNum (Int 0)));
                       ("timestamp", VNum (Int now));
                       ("item", projected)])))%completion.

(** The canvas of a track: [Normal (Some url)] when one is found,
    [Normal None] when none is, [Thrown] when [canvas.json] cannot be read
    or parsed. *)
Definition lookup_canvas (w : W) (id : value) : completion (option value) :=
  if existsSync w (mp4_of id) then
    Normal (Some (VStr ("/canvas/" ++ ToString id ++ ".mp4")))
  else if existsSync w (webm_of id) then
    Normal (Some (VStr ("/canvas/" ++ ToString id ++ ".webm")))
  else if existsSync w mapFile then
    (text <-- readFileSync w mapFile ;;
     mapping <-- JSON_parse text ;;
     if negb (truthy mapping) then Normal None else
     entry <-- get mapping (ToString id) ;;
     Normal (if truthy entry then Some entry else None))%completion
  else Normal None.

(** The response object after the canvas lookup, and what the lookup
    writes to the console. *)
Definition augment (w : W) (out : value) : value * list effect :=
  if truthy (item_of out) && truthy (id_of (item_of out)) then
    match lookup_canvas w (id_of (item_of out)) with
    | Normal (Some url) => (set_canvas_url out url, [])
    | Normal None => (out, [])
    | Thrown e => (out, [console_error "Failed to parse canvas.json" e])
    end
  else (out, []).

(** The body of the 500 answer of [/now-playing]. *)
Definition failed (err : Error) : response :=
  json 500 (VObj [("error", VStr "failed");
                  ("details", VStr (error_to_string err))]).

(** Whether a provider operation occurs in a record of effects. *)
Definition is_call (op : operation) (e : effect) : bool :=
  match e, op with
  | called OpCodeGrant _ _, OpCodeGrant
  | called OpRefresh _ _, OpRefresh
  | called OpPlaybackState _ _, OpPlaybackState => true
  | _, _ => false
  end.

Definition performed (op : operation) (t : list effect) : bool :=
  existsb (is_call op) t.

(** [null] or [undefined] *)
Definition nullish (v : value) : bool :=
  match v with
  | VUndefined | VNull => true
  | _ => false
  end.

(** What a code exchange or a refresh must answer for the handler to
    read tokens from it: an object with a [body]. *)
Definition carries_body (data : value) : bool :=
  match get data "body" with
  | Normal body => negb (nullish body)
  | Thrown _ => false
  end.

(** The effects a refresh can leave. *)
Definition from_refresh (e : effect) : Prop :=
  match e with
  | called OpRefresh _ _ => True
  | console_log _ => True
  | console_error label _ => label = "Failed to refresh token:"%string
  | _ => False
  end.

(** *** Reachable stores

    The store changes through [/callback] and through the refresh step,
    which [/now-playing] and the four playback controls run first. *)

Inductive step (st : Store) : Store -> Prop :=
| step_callback (q : list (string * value)) (w : W) :
    step st (final (run (callback q) st w))
| step_refresh (w : W) :
    step st (final (run refreshAccessTokenIfNeeded st w))
| step_now_playing (w : W) :
    step st (final (run now_playing st w)).

Inductive reachable : Store -> Prop :=
| reachable_initial : reachable initial_store
| reachable_step (st st' : Store) :
    reachable st -> step st st' -> reachable st'.

(** The refresh token inside [spotifyApi] is the stored one, as soon as
    one is stored. *)
Definition in_sync (st : Store) : Prop :=
  truthy (REFRESH_TOKEN st) = true -> refreshToken st = REFRESH_TOKEN st.

End Server.




(** ** The rest of the server: [/login] and the playback controls *)

(** What [/login] takes from the platform besides [Runtime]. *)
Class Authorize : Type := {
  (** throws [URIError] on a lone surrogate *)
  encodeURIComponent : string -> completion string;
  (** [spotifyApi.createAuthorizeURL(scopes, state)], from the client id
      and the redirect URI the [spotifyApi] object was built with *)
  createAuthorizeURL : value -> string -> list string -> string -> string
}.

(** What a rejected control call carries: the error and its [body]
    property ([undefined] on an error that has none). *)
Record Rejection : Type := mkRejection {
  thrown : Error;
  thrown_body : value
}.

Inductive settled : Type :=
| Resolved
| Rejected (r : Rejection).

(** The four control operations of [spotifyApi], each sent with the access
    token it holds. *)
Class Player (W : Type) : Type := {
  spotifyApi_play : value -> W -> settled * W;
  spotifyApi_pause : value -> W -> settled * W;
  skipToNext : value -> W -> settled * W;
  skipToPrevious : value -> W -> settled * W
}.

Section Login.

Context {RT : Runtime} {AZ : Authorize} {W : Type} {WD : World W}.

Local Open Scope js_scope.

Definition dquote : string := String (ascii_of_nat 34) EmptyString.
Definition newline : string := String (ascii_of_nat 10) EmptyString.

Definition PORT : Z := 8888.

(** [`http://127.0.0.1:${PORT}/callback`] *)
Definition REDIRECT_URI : string :=
  "http://127.0.0.1:" ++ ToString (VNum (Int PORT)) ++ "/callback".

Definition scopes : list string :=
  ["user-read-playback-state";
   "user-read-currently-playing";
   "user-modify-playback-state";
   "user-read-private"]%string.

(** The page of lines 57-66. *)
Definition misconfigured_page : string :=
  join newline
    [EmptyString;
     ("      <html><head><meta charset=" ++ dquote ++ "utf-8" ++ dquote ++ "><title>Spotify Login - Misconfigured</title></head>")%string;
     ("      <body style=" ++ dquote ++ "font-family:system-ui,Segoe UI,Roboto,Arial;display:flex;align-items:center;justify-content:center;height:100vh;background:#111;color:#fff" ++ dquote ++ ">")%string;
     ("        <div style=" ++ dquote ++ "max-width:720px;padding:24px;background:#0f1720;border-radius:12px;box-shadow:0 8px 30px rgba(0,0,0,.6);border:1px solid rgba(255,255,255,0.03)" ++ dquote ++ ">")%string;
     "          <h2>Spotify OAuth is not configured</h2>"%string;
     "          <p>The server is missing SPOTIFY_CLIENT_ID or SPOTIFY_CLIENT_SECRET. Please set these in your <code>.env</code> or environment.</p>"%string;
     ("          <p>Current Redirect URI: <code>" ++ REDIRECT_URI ++ "</code></p>")%string;
     "        </div>"%string;
     "      </body></html>"%string;
     "    "%string].

(** [GET /login] (lines 43-71).  The handler has no [try]: what
    [encodeURIComponent] throws leaves it. *)
Definition login (q : list (string * value)) : js W response :=
  let returnTo := or_else (query q "returnTo") (VStr "/") in
  state <- lift (encodeURIComponent (ToString returnTo)) ;;
  if negb authPossible then ret (send 400 misconfigured_page) else
  let authorizeURL := createAuthorizeURL CLIENT_ID REDIRECT_URI scopes state in
  ret (redirect authorizeURL).

(** [GET /] (lines 233-235) *)
Definition root : js W response := ret (redirect "/index.html").

End Login.

Section Controls.

Context {RT : Runtime} {W : Type} {WD : World W} {PL : Player W}.

Local Open Scope js_scope.

(** An error thrown by the handler itself has no [body]. *)
Definition plain (e : Error) : Rejection := mkRejection e VUndefined.

(** [err?.body || err?.message || String(err)] *)
Definition details_of (r : Rejection) : value :=
  or_else (thrown_body r)
    (or_else (VStr (message (thrown r)))
       (VStr (error_to_string (thrown r)))).

Definition success : response := json 200 (VObj [("success", VBool true)]).

(** The [try] block shared by the four control handlers: it ends with the
    answer sent, or with what was thrown. *)
Definition attempt (call : value -> W -> settled * W)
  : Machine W -> (Rejection + response) * Machine W :=
  fun m =>
    match refreshAccessTokenIfNeeded m with
    | (Thrown e, m1) => (inl (plain e), m1)
    | (Normal _, m1) =>
        let token := accessToken (store m1) in
        if negb (truthy token) then (inr not_authenticated, m1) else
        let (answer, w') := call token (world m1) in
        let m2 := mkMachine (store m1) w' (effects m1) in
        match answer with
        | Resolved => (inr success, m2)
        | Rejected r => (inl r, m2)
        end
    end.

(** [try { ... } catch (err) { console.error("<route> error", err); ... }] *)
Definition control (route : string) (call : value -> W -> settled * W)
  : js W response :=
  fun m =>
    match attempt call m with
    | (inr answer, m') => (Normal answer, m')
    | (inl r, m') =>
        (emit (console_error (route ++ " error") (thrown r)) ;;
         ret (json 500 (VObj [("error", VStr (route ++ " failed"));
                              ("details", details_of r)]))) m'
    end.

(** [POST /play], [/pause], [/next], [/previous] (lines 102-153) *)
Definition play : js W response := control "play" spotifyApi_play.
Definition pause : js W response := control "pause" spotifyApi_pause.
Definition next : js W response := control "next" skipToNext.
Definition previous : js W response := control "previous" skipToPrevious.

Inductive route : Type := Play | Pause | Next | Previous.

Definition route_name (r : route) : string :=
  match r with
  | Play => "play"
  | Pause => "pause"
  | Next => "next"
  | Previous => "previous"
  end.

Definition operation_of (r : route) : value -> W -> settled * W :=
  match r with
  | Play => spotifyApi_play
  | Pause => spotifyApi_pause
  | Next => skipToNext
  | Previous => skipToPrevious
  end.

Definition handler_of (r : route) : js W response :=
  match r with
  | Play => play
  | Pause => pause
  | Next => next
  | Previous => previous
  end.

End Controls.

(** ** A concrete platform

    An executable instance of [Runtime] and [World], on which the handlers
    run by computation: [decodeURIComponent] as ECMAScript defines it (on
    UTF-8 byte strings), a scripted provider and a file system given as a
    table. *)

Module Sample.

Definition URIError : Error := mkError "URIError" "URI malformed".

Definition hex_digit (c : ascii) : option N :=
  let n := N_of_ascii c in
  (if (48 <=? n) && (n <=? 57) then Some (n - 48)
   else if (65 <=? n) && (n <=? 70) then Some (n - 55)
   else if (97 <=? n) && (n <=? 102) then Some (n - 87)
   else None)%N.

(** The octet of a leading ["%XX"], and what follows it. *)
Definition escape (s : string) : option (N * string) :=
  match s with
  | String "%" (String h (String l rest)) =>
      match hex_digit h, hex_digit l with
      | Some a, Some b => Some (16 * a + b, rest)%N
      | _, _ => None
      end
  | _ => None
  end.

(** The continuation octet of a leading ["%XX"], within [lo..hi]. *)
Definition continuation (lo hi : N) (s : string) : option (ascii * string) :=
  match escape s with
  | Some (b, rest) =>
      if ((lo <=? b) && (b <=? hi))%N then Some (ascii_of_N b, rest) else None
  | None => None
  end.

(** The octets that may follow the leading octet [b] of a well-formed
    UTF-8 sequence: the range of the second octet and the number of
    further octets. *)
Definition utf8_tail (b : N) : option (N * N * nat) :=
  (if (194 <=? b) && (b <=? 223) then Some (128, 191, 0%nat)
   else if b =? 224 then Some (160, 191, 1%nat)
   else if (225 <=? b) && (b <=? 236) then Some (128, 191, 1%nat)
   else if b =? 237 then Some (128, 159, 1%nat)
   else if (238 <=? b) && (b <=? 239) then Some (128, 191, 1%nat)
   else if b =? 240 then Some (144, 191, 2%nat)
   else if (241 <=? b) && (b <=? 243) then Some (128, 191, 2%nat)
   else if b =? 244 then Some (128, 143, 2%nat)
   else None)%N.

Fixpoint continuations (n : nat) (s : string) : option (string * string) :=
  match n with
  | O => Some (EmptyString, s)
  | S n' =>
      match continuation 128 191 s with
      | Some (c, rest) =>
          match continuations n' rest with
          | Some (cs, rest') => Some (String c cs, rest')
          | None => None
          end
      | None => None
      end
  end.

Fixpoint decode (fuel : nat) (s : string) : completion string :=
  match fuel with
  | O => Normal EmptyString
  | S fuel' =>
      match s with
      | EmptyString => Normal EmptyString
      | String "%" _ =>
          match escape s with
          | None => Thrown URIError
          | Some (b, rest) =>
              if (b <? 128)%N then
                (tl <-- decode fuel' rest ;; Normal (String (ascii_of_N b) tl))%completion
              else
                match utf8_tail b with
                | None => Thrown URIError
                | Some (lo, hi, more) =>
                    match continuation lo hi rest with
                    | None => Thrown URIError
                    | Some (c2, rest2) =>
                        match continuations more rest2 with
                        | None => Thrown URIError
                        | Some (cs, rest3) =>
                            (tl <-- decode fuel' rest3 ;;
                             Normal (String (ascii_of_N b) (String c2 (cs ++ tl))))%completion
                        end
                    end
                end
          end
      | String c rest =>
          (tl <-- decode fuel' rest ;; Normal (String c tl))%completion
      end
  end.

Definition decode_uri_component (s : string) : completion string :=
  decode (String.length s) s.

(** [path.join] on segments that need no normalisation. *)
Definition join_path (segments : list string) : string := join "/" segments.

(** The canvas table this deployment ships as [canvas.json], and the text
    [JSON.parse] is given on. *)
Definition quote : string := String (ascii_of_nat 34) EmptyString.

Definition canvas_json : string :=
  "{" ++ quote ++ "4uLU6hMCjMI75M1A2tKUQC" ++ quote ++ ":"
      ++ quote ++ "https://cdn.example/canvas/rick.mp4" ++ quote ++ "}".

Definition parse_json (text : string) : completion value :=
  if (text =? canvas_json)%string then
    Normal (VObj [("4uLU6hMCjMI75M1A2tKUQC", VStr "https://cdn.example/canvas/rick.mp4")])
  else if (text =? "null")%string then Normal VNull
  else if (text =? "{}")%string then Normal (VObj [])
  else Thrown (mkError "SyntaxError" "Unexpected token in JSON").

(** Decimal integer literals; everything else is [NaN] here. *)
Definition string_to_number (s : string) : number :=
  if (s =? EmptyString)%string then Int 0
  else match NilZero.int_of_string s with
       | Some i => Int (Z.of_int i)
       | None => NaN
       end.

Definition runtime (env : string -> option string) : Runtime :=
  {| process_env := env;
     __dirname := "/srv/wallpaper";
     path_join := join_path;
     decodeURIComponent := decode_uri_component;
     JSON_parse := parse_json;
     StringToNumber := string_to_number |}.

Definition configured (k : string) : option string :=
  if (k =? "SPOTIFY_CLIENT_ID")%string then Some "0123456789abcdef0123456789abcdef"
  else if (k =? "SPOTIFY_CLIENT_SECRET")%string then Some "fedcba9876543210fedcba9876543210"
  else None.

Definition unconfigured (k : string) : option string := None.

(** A scripted world: the clock, the files, and what the provider answers
    to each operation; every awaited call takes [latency] milliseconds. *)
Record Script : Type := mkScript {
  clock : Z;
  latency : Z;
  files : list (string * completion string);
  grant : completion value;
  refresh : completion value;
  playback : completion value
}.

Fixpoint file (path : string) (fs : list (string * completion string))
  : option (completion string) :=
  match fs with
  | [] => None
  | (p, c) :: rest => if (p =? path)%string then Some c else file path rest
  end.

Definition elapse (w : Script) : Script :=
  mkScript (clock w + latency w) (latency w) (files w) (grant w) (refresh w)
    (playback w).

#[export] Instance scripted : World Script :=
  {| Date_now := clock;
     existsSync := fun w p => match file p (files w) with Some _ => true | None => false end;
     readFileSync := fun w p =>
       match file p (files w) with
       | Some c => c
       | None => Thrown (mkError "Error" "ENOENT: no such file or directory")
       end;
     authorizationCodeGrant := fun _ w => (grant w, elapse w);
     refreshAccessToken := fun _ w => (refresh w, elapse w);
     getMyCurrentPlaybackState := fun _ w => (playback w, elapse w) |}.

(** Provider answers. *)
Definition token_response : value :=
  VObj [("body", VObj [("access_token", VStr "BQDaccess");
                       ("token_type", VStr "Bearer");
                       ("expires_in", VNum (Int 3600));
                       ("refresh_token", VStr "AQDrefresh")]);
        ("statusCode", VNum (Int 200))].

Definition unauthorized : Error := mkError "WebapiRegularError"
  "An error occurred while communicating with Spotify's Web API.".

Definition track : value :=
  VObj [("id", VStr "4uLU6hMCjMI75M1A2tKUQC");
        ("name", VStr "Never Gonna Give You Up");
        ("artists", VArr [VObj [("name", VStr "Rick Astley")]]);
        ("album", VObj [("name", VStr "Whenever You Need Somebody");
                        ("images", VArr [])]);
        ("duration_ms", VNum (Int 213573));
        ("external_urls", VObj [])].

Definition playing : value :=
  VObj [("body", VObj [("is_playing", VBool true);
                       ("progress_ms", VNum (Int 1000));
                       ("item", track)]);
        ("statusCode", VNum (Int 200))].

Definition no_content : value :=
  VObj [("body", VObj []); ("status", VNum (Int 204))].

Definition authenticated : Store :=
  {| accessToken := VStr "BQDaccess";
     refreshToken := VStr "AQDrefresh";
     REFRESH_TOKEN := VStr "AQDrefresh";
     ACCESS_TOKEN_EXPIRES_AT := Int 3600000 |}.

(** Nothing on disk, a provider that answers. *)
Definition quiet (now : Z) : Script :=
  {| clock := now; latency := 40; files := [];
     grant := Normal token_response;
     refresh := Normal token_response;
     playback := Normal playing |}.

(** The same with the given files and playback answer, and a provider that
    rejects every token request. *)
Definition offline (now : Z) (fs : list (string * completion string))
    (answer : completion value) : Script :=
  {| clock := now; latency := 40; files := fs;
     grant := Thrown unauthorized;
     refresh := Thrown unauthorized;
     playback := answer |}.

Definition canvas_json_path : string := "/srv/wallpaper/canvas.json".
Definition webm_path : string :=
  "/srv/wallpaper/public/canvas/4uLU6hMCjMI75M1A2tKUQC.webm".

(** The response object for [track], before the canvas lookup. *)
Definition projected : value :=
  VObj [("is_playing", VBool true);
        ("progress_ms", VNum (Int 1000));
        ("timestamp", VNum (Int 1040));
        ("item", VObj [("id", VStr "4uLU6hMCjMI75M1A2tKUQC");
                       ("name", VStr "Never Gonna Give You Up");
                       ("artists", VArr [VStr "Rick Astley"]);
                       ("album", VStr "Whenever You Need Somebody");
                       ("album_images", VArr []);
                       ("duration_ms", VNum (Int 213573));
                       ("external_urls", VObj [])])].

(** The provider is unreachable when the access token is about to
    expire. *)
Definition unreachable_at_expiry : Script :=
  offline 3600000 [] (Normal playing).

(** Both a local [.webm] and an entry of [canvas.json] for [track]. *)
Definition webm_and_mapping : Script :=
  offline 1040 [(webm_path, Normal "webm"%string);
                (canvas_json_path, Normal canvas_json)]
    (Normal playing).

(** A [canvas.json] that does not parse. *)
Definition broken_mapping : Script :=
  offline 1000 [(canvas_json_path, Normal "{oops"%string)] (Normal playing).

#[export] Instance node : Runtime := runtime configured.

(** [encodeURIComponent]: every octet but the unreserved marks becomes
    ["%XX"]. *)
Definition hex_char (n : N) : ascii :=
  (if n <? 10 then ascii_of_N (48 + n) else ascii_of_N (55 + n))%N.

Definition unreserved (c : ascii) : bool :=
  let n := N_of_ascii c in
  ((65 <=? n) && (n <=? 90) || (97 <=? n) && (n <=? 122)
   || (48 <=? n) && (n <=? 57)
   || (n =? 45) || (n =? 95) || (n =? 46) || (n =? 33) || (n =? 126)
   || (n =? 42) || (n =? 39) || (n =? 40) || (n =? 41))%N.

Fixpoint encode (s : string) : string :=
  match s with
  | EmptyString => EmptyString
  | String c rest =>
      if unreserved c then String c (encode rest)
      else
        let n := N_of_ascii c in
        String "%" (String (hex_char (n / 16)) (String (hex_char (n mod 16))
          (encode rest)))
  end.

Definition encode_uri_component (s : string) : completion string :=
  Normal (encode s).

(** The authorize URL, in the layout of the provider's documentation. *)
Definition authorize_url (client_id : value) (redirect_uri : string)
    (scopes : list string) (state : string) : string :=
  "https://accounts.spotify.com/authorize?client_id=" ++ ToString client_id
  ++ "&response_type=code&redirect_uri=" ++ encode redirect_uri
  ++ "&scope=" ++ join "%20" scopes ++ "&state=" ++ state.

#[export] Instance authorize : Authorize :=
  {| encodeURIComponent := encode_uri_component;
     createAuthorizeURL := authorize_url |}.

(** A player that settles every control call the same way. *)
Definition player (answer : settled) : Player Script :=
  {| spotifyApi_play := fun _ w => (answer, elapse w);
     spotifyApi_pause := fun _ w => (answer, elapse w);
     skipToNext := fun _ w => (answer, elapse w);
     skipToPrevious := fun _ w => (answer, elapse w) |}.

(** What the provider rejects a control call with when no device is
    active. *)
Definition no_device : Rejection :=
  {| thrown := mkError "WebapiPlayerError" "Player command failed: No active device found";
     thrown_body := VObj [("error", VObj [("status", VNum (Int 404));
                                          ("message", VStr "Player command failed: No active device found");
                                          ("reason", VStr "NO_ACTIVE_DEVICE")])] |}.

(** A transport error: no [body]. *)
Definition connection_refused : Rejection :=
  {| thrown := mkError "Error" "connect ECONNREFUSED";
     thrown_body := VUndefined |}.

(** A world in which the provider always issues tokens: the state is the
    clock. *)
Definition steady : World Z :=
  {| Date_now := fun w => w;
     existsSync := fun _ _ => false;
     readFileSync := fun _ _ => Thrown (mkError "Error" "ENOENT: no such file or directory");
     authorizationCodeGrant := fun _ w => (Normal token_response, w + 40);
     refreshAccessToken := fun _ w => (Normal token_response, w + 40);
     getMyCurrentPlaybackState := fun _ w => (Normal playing, w + 40) |}.

(** A token answer that rotates the refresh token. *)
Definition rotated_response : value :=
  VObj [("body", VObj [("access_token", VStr "BQDnext");
                       ("expires_in", VNum (Int 3600));
                       ("refresh_token", VStr "AQDrotated")])].

Definition rotating (now : Z) : Script :=
  {| clock := now; latency := 40; files := [];
     grant := Normal token_response;
     refresh := Normal rotated_response;
     playback := Normal playing |}.

(** A track the provider sends without [artists]. *)
Definition without_artists : value :=
  VObj [("body", VObj [("is_playing", VBool true);
                       ("item", VObj [("id", VStr "4uLU6hMCjMI75M1A2tKUQC");
                                      ("name", VStr "Never Gonna Give You Up")])])].

(** An active session with nothing loaded. *)
Definition idle : value :=
  VObj [("body", VObj [("device", VObj [("is_active", VBool true)])])].



(** A [canvas.json] that cannot be read. *)
Definition unreadable_mapping : Script :=
  offline 1000
    [(canvas_json_path, Thrown (mkError "Error" "EACCES: permission denied, open"))]
    (Normal playing).

(** A [canvas.json] that holds [null]. *)
Definition null_mapping : Script :=
  offline 1000 [(canvas_json_path, Normal "null"%string)] (Normal playing).

End Sample.

(** * Properties *)

Section Refinement.

Context {RT : Runtime} {W : Type} {WD : World W}.

Ltac js_red :=
  cbv beta iota zeta delta
    [run result final trace try_catch bind ret throw lift read write observe
     emit await and_next setAccessToken setRefreshToken getAccessToken
     set_REFRESH_TOKEN set_ACCESS_TOKEN_EXPIRES_AT store world effects fst snd].

(** ** JavaScript values *)

Lemma get_defined (v : value) (k : string) :
  nullish v = false -> exists x, get v k = Normal x.
Proof. destruct v; simpl; intros H; try discriminate; eauto. Qed.

Lemma get_nullish (v : value) (k : string) :
  nullish v = true -> exists e, get v k = Thrown e.
Proof. destruct v; simpl; intros H; try discriminate; eauto. Qed.

Lemma truthy_not_nullish (v : value) : truthy v = true -> nullish v = false.
Proof. destruct v; simpl; intros H; try discriminate; reflexivity. Qed.

Lemma truthy_string (s : string) :
  truthy (VStr s) = negb (s =? EmptyString)%string.
Proof. reflexivity. Qed.

Lemma error_to_string_nonempty (e : Error) :
  name e <> EmptyString \/ message e <> EmptyString ->
  error_to_string e <> EmptyString.
Proof.
  unfold error_to_string. intros H.
  destruct (name e =? EmptyString)%string eqn:Hn.
  - apply String.eqb_eq in Hn. destruct H as [H | H]; [contradiction | exact H].
  - apply String.eqb_neq in Hn.
    destruct (message e =? EmptyString)%string; [exact Hn |].
    destruct (name e); [contradiction | discriminate].
Qed.

(** ** The handlers and their functional descriptions *)

Lemma refresh_run (st : Store) (w : W) (t : list effect) :
  refreshAccessTokenIfNeeded (mkMachine st w t) =
  let '(st', w', d) := refresh_outcome st w in
  (Normal tt, mkMachine st' w' (t ++ d)%list).
Proof.
  unfold refreshAccessTokenIfNeeded, refresh_outcome, due, refresh_payload.
  js_red.
  destruct (truthy (REFRESH_TOKEN st)); cbn [negb andb];
    [| now rewrite app_nil_r].
  destruct (lt _ _); cbn [negb]; [now rewrite app_nil_r |].
  destruct (refreshAccessToken _ _) as [[data | e] w'];
    [| now rewrite <- app_assoc].
  destruct (get data "body") as [body | e]; [| now rewrite <- app_assoc].
  destruct body; cbn [get]; now rewrite <- app_assoc.
Qed.

Lemma callback_run (q : list (string * value)) (st : Store) (w : W) :
  run (callback q) st w =
  let code := query q "code" in
  if truthy code then
    let (answer, w') := authorizationCodeGrant code w in
    match (data <-- answer ;; grant_payload data)%completion with
    | Normal (access, refresh, expiresIn) =>
        (Normal (redirect (return_path (query q "state"))),
         mkMachine (mkStore access refresh refresh (expiry (Date_now w') expiresIn))
           w' [called OpCodeGrant code answer])
    | Thrown err =>
        (Normal (send 500 "Auth error"),
         mkMachine st w' [called OpCodeGrant code answer;
                          console_error "Error exchanging code:" err])
    end
  else (Normal (send 400 "Missing code"), mkMachine st w []).
Proof.
  unfold callback, grant_payload, return_path. js_red.
  destruct (truthy (query q "code")); cbn [negb]; [| reflexivity].
  cbn [app].
  destruct (authorizationCodeGrant _ _) as [[data | e] w']; [| reflexivity].
  destruct (get data "body") as [body | e]; [| reflexivity].
  destruct body; cbn [get]; try reflexivity;
    destruct (decodeURIComponent _) as [decoded | e]; try reflexivity;
    rewrite truthy_string; destruct (_ && _); reflexivity.
Qed.

Lemma canvas_detection_run (out : value) (st : Store) (w : W) (t : list effect) :
  canvas_detection out (mkMachine st w t) =
  let (out', d) := augment w out in
  (Normal out', mkMachine st w (t ++ d)%list).
Proof.
  unfold canvas_detection, augment, lookup_canvas. js_red.
  destruct (truthy (item_of out) && truthy (id_of (item_of out)));
    [| now rewrite app_nil_r].
  destruct (existsSync w (mp4_of _)); [now rewrite app_nil_r |].
  destruct (existsSync w (webm_of _)); [now rewrite app_nil_r |].
  destruct (existsSync w mapFile); [| now rewrite app_nil_r].
  destruct (readFileSync w mapFile) as [text | e]; [| reflexivity].
  destruct (JSON_parse text) as [mapping | e]; [| reflexivity].
  destruct (truthy mapping); cbn [negb]; [| now rewrite app_nil_r].
  destruct (get mapping _) as [entry | e]; [| reflexivity].
  destruct (truthy entry); now rewrite app_nil_r.
Qed.

Lemma now_playing_run (st : Store) (w : W) :
  run now_playing st w =
  let '(st1, w1, d1) := refresh_outcome st w in
  let token := accessToken st1 in
  if truthy token then
    let (answer, w2) := getMyCurrentPlaybackState token w1 in
    let d2 := (d1 ++ [called OpPlaybackState token answer])%list in
    match (data <-- answer ;; project data (Date_now w2))%completion with
    | Normal (Some out) =>
        let (out', d3) := augment w2 out in
        (Normal (json 200 out'), mkMachine st1 w2 (d2 ++ d3)%list)
    | Normal None => (Normal no_session, mkMachine st1 w2 d2)
    | Thrown err =>
        (Normal (failed err),
         mkMachine st1 w2 (d2 ++ [console_error "now-playing error" err])%list)
    end
  else (Normal not_authenticated, mkMachine st1 w1 d1).
Proof.
  unfold now_playing, run.
  unfold try_catch at 1. unfold bind at 1. rewrite refresh_run.
  destruct (refresh_outcome st w) as [[st1 w1] d1]. cbn [app].
  unfold project, failed. js_red.
  destruct (truthy (accessToken st1)); cbn [negb]; [| reflexivity].
  destruct (getMyCurrentPlaybackState _ _) as [[data | e] w2]; [| reflexivity].
  destruct (get data "body") as [body | e]; [| reflexivity].
  destruct (truthy body); cbn [negb]; [| reflexivity].
  destruct (get data "status") as [status | e]; [| reflexivity].
  destruct (is_204 status); [reflexivity |].
  destruct (get body "item") as [item | e]; [| reflexivity].
  destruct (get body "progress_ms") as [progress | e]; [| reflexivity].
  destruct (get body "is_playing") as [playing | e]; [| reflexivity].
  destruct (project_item item) as [projected | e]; [| reflexivity].
  match goal with
  | |- context [canvas_detection ?o ?m] =>
      pose proof (canvas_detection_run o st1 w2
                    (d1 ++ [called OpPlaybackState (accessToken st1) (Normal data)])) as E
  end.
  cbv beta iota zeta delta [store world effects] in E |- *.
  rewrite E. destruct (augment w2 _) as [out' d3]. reflexivity.
Qed.

(** ** What can be read off the record of effects *)

Lemma refresh_outcome_effects (st : Store) (w : W) :
  Forall from_refresh (snd (refresh_outcome st w)).
Proof.
  unfold refresh_outcome.
  destruct (due st w); [| constructor].
  destruct (refreshAccessToken _ _) as [answer w'].
  destruct (and_next answer _) as [[access expiresIn] | e]; cbn [snd];
    repeat constructor.
Qed.

Lemma refresh_never_throws (st : Store) (w : W) :
  result (run refreshAccessTokenIfNeeded st w) = Normal tt.
Proof.
  unfold run. rewrite refresh_run.
  destruct (refresh_outcome st w) as [[st1 w1] d1]. reflexivity.
Qed.

Lemma refresh_final (st : Store) (w : W) :
  final (run refreshAccessTokenIfNeeded st w) = fst (fst (refresh_outcome st w)).
Proof.
  unfold run. rewrite refresh_run.
  destruct (refresh_outcome st w) as [[st1 w1] d1]. reflexivity.
Qed.

Lemma refresh_trace (st : Store) (w : W) :
  trace (run refreshAccessTokenIfNeeded st w) = snd (refresh_outcome st w).
Proof.
  unfold run. rewrite refresh_run.
  destruct (refresh_outcome st w) as [[st1 w1] d1]. reflexivity.
Qed.

Lemma refresh_performed_iff_due (st : Store) (w : W) :
  performed OpRefresh (trace (run refreshAccessTokenIfNeeded st w)) = due st w.
Proof.
  rewrite refresh_trace. unfold refresh_outcome.
  destruct (due st w); [| reflexivity].
  destruct (refreshAccessToken _ _) as [answer w'].
  destruct (and_next answer _) as [[access expiresIn] | e]; reflexivity.
Qed.

Lemma augment_effects (w : W) (out : value) (e : effect) :
  In e (snd (augment w out)) ->
  exists err, e = console_error "Failed to parse canvas.json" err
              /\ fst (augment w out) = out
              /\ lookup_canvas w (id_of (item_of out)) = Thrown err.
Proof.
  unfold augment.
  destruct (truthy (item_of out) && truthy (id_of (item_of out)));
    [| intros []].
  destruct (lookup_canvas w _) as [[url |] | err]; cbn [fst snd].
  - intros [].
  - intros [].
  - intros [<- | []]. eauto.
Qed.

(** The playback-state call occurs once, with the access token held after
    the refresh, and its answer is the world's. *)
Lemma playback_called_inv (st : Store) (w : W) (token : value)
    (answer : completion value) :
  In (called OpPlaybackState token answer) (trace (run now_playing st w)) ->
  let '(st1, w1, _) := refresh_outcome st w in
  token = accessToken st1 /\ truthy token = true
  /\ answer = fst (getMyCurrentPlaybackState token w1).
Proof.
  rewrite now_playing_run.
  pose proof (refresh_outcome_effects st w) as F.
  destruct (refresh_outcome st w) as [[st1 w1] d1]. cbn [snd] in F.
  assert (Hd1 : ~ In (called OpPlaybackState token answer) d1).
  { intros Hin. rewrite Forall_forall in F. apply (F _ Hin). }
  cbv zeta. destruct (truthy (accessToken st1)) eqn:Ht;
    [| intros Hin; now apply Hd1 in Hin].
  destruct (getMyCurrentPlaybackState (accessToken st1) w1) as [ans w2] eqn:Hc.
  assert (Hmid : In (called OpPlaybackState token answer)
                   (d1 ++ [called OpPlaybackState (accessToken st1) ans]) ->
                 token = accessToken st1 /\ truthy token = true
                 /\ answer = fst (getMyCurrentPlaybackState token w1)).
  { intros Hin. apply in_app_or in Hin. destruct Hin as [Hin | [Hin | []]];
      [contradiction |].
    injection Hin as <- <-. rewrite Hc. auto. }
  destruct (and_next ans _) as [[out |] | err]; unfold trace; cbn [snd effects].
  - pose proof (augment_effects w2 out) as A.
    destruct (augment w2 out) as [out' d3]. cbn [snd effects fst] in *.
    intros Hin. apply in_app_or in Hin. destruct Hin as [Hin | Hin]; auto.
    destruct (A _ Hin) as (err & Habs & _). discriminate.
  - exact Hmid.
  - intros Hin. apply in_app_or in Hin. destruct Hin as [Hin | [Hin | []]]; auto.
    discriminate.
Qed.

(** ** An invariant of the store *)

Lemma now_playing_final (st : Store) (w : W) :
  final (run now_playing st w) = final (run refreshAccessTokenIfNeeded st w).
Proof.
  rewrite refresh_final, now_playing_run.
  destruct (refresh_outcome st w) as [[st1 w1] d1]. cbv zeta.
  destruct (truthy (accessToken st1)); [| reflexivity].
  destruct (getMyCurrentPlaybackState _ _) as [answer w2].
  destruct (and_next answer _) as [[out |] | err]; try reflexivity.
  destruct (augment w2 out). reflexivity.
Qed.

Lemma refresh_keeps_sync (st : Store) (w : W) :
  in_sync st -> in_sync (final (run refreshAccessTokenIfNeeded st w)).
Proof.
  rewrite refresh_final. unfold refresh_outcome.
  destruct (due st w); [| trivial].
  destruct (refreshAccessToken _ _) as [answer w'].
  destruct (and_next answer _) as [[access expiresIn] | e];
    intros _ _; reflexivity.
Qed.

Lemma callback_keeps_sync (q : list (string * value)) (st : Store) (w : W) :
  in_sync st -> in_sync (final (run (callback q) st w)).
Proof.
  rewrite callback_run. cbv zeta.
  destruct (truthy (query q "code")); [| trivial].
  destruct (authorizationCodeGrant _ _) as [answer w'].
  destruct (and_next answer _) as [[[access refresh] expiresIn] | e];
    [intros _ _; reflexivity | trivial].
Qed.

(** X27. In every store the server can reach, a stored refresh token is also
    the one inside [spotifyApi]. *)
Lemma reachable_in_sync (st : Store) : reachable st -> in_sync st.
Proof.
  induction 1 as [| st st' _ IH Hstep].
  - intros Hheld. discriminate Hheld.
  - destruct Hstep.
    + now apply callback_keeps_sync.
    + now apply refresh_keeps_sync.
    + rewrite now_playing_final. now apply refresh_keeps_sync.
Qed.

End Refinement.

(** ** The credential store: [refreshAccessTokenIfNeeded] *)

Section CredentialStore.

Context {RT : Runtime} {W : Type} {WD : World W}.

(** C9. With no refresh token held, [refreshAccessTokenIfNeeded] returns
    normally and changes nothing: the credentials inside [spotifyApi],
    [REFRESH_TOKEN] and [ACCESS_TOKEN_EXPIRES_AT] are as before, whatever
    the expiry was; no provider call is made and nothing is logged. *)
Theorem refresh_is_noop_without_refresh_token (st : Store) (w : W) :
  truthy (REFRESH_TOKEN st) = false ->
  run refreshAccessTokenIfNeeded st w = (Normal tt, mkMachine st w []).
Proof.
  intros Hheld. unfold run. rewrite refresh_run.
  unfold refresh_outcome, due. rewrite Hheld. reflexivity.
Qed.

(** C2. The provider refresh is called exactly when a refresh token is
    held and the clock has reached [expiresAt - 30000] ms; so it is not
    called while the expiry is more than 30 s ahead, and it is called, a
    token being held, from [expiresAt - 30 s] on. *)
Theorem refresh_called_iff_token_held_and_due (st : Store) (w : W) (expiresAt : Z) :
  ACCESS_TOKEN_EXPIRES_AT st = Int expiresAt ->
  let needsRefresh :=
    performed OpRefresh (trace (run refreshAccessTokenIfNeeded st w)) in
  (needsRefresh = true <->
     truthy (REFRESH_TOKEN st) = true /\ Date_now w >= expiresAt - 30000)
  /\ (Date_now w < expiresAt - 30000 -> needsRefresh = false)
  /\ (truthy (REFRESH_TOKEN st) = true ->
      Date_now w >= expiresAt - 30000 -> needsRefresh = true).
Proof.
  intros Hexp needsRefresh. subst needsRefresh.
  rewrite refresh_performed_iff_due. unfold due. rewrite Hexp.
  cbn [sub lt].
  destruct (Z.ltb_spec (Date_now w) (expiresAt - 30000)) as [Hfresh | Hdue];
    cbn [negb]; rewrite ?andb_false_r, ?andb_true_r.
  - repeat split; try lia; try reflexivity; intros Hneeds; discriminate Hneeds.
  - repeat split; try lia; tauto.
Qed.

(** C3. When the provider refresh is called and throws, the call returns
    normally to its caller, and the access token, the stored refresh token
    and the expiry are what they were; the copy of the refresh token inside
    [spotifyApi] is the stored one, so a store whose two copies agreed is
    unchanged as a whole. *)
Theorem failed_refresh_is_absorbed (st : Store) (w : W) (sent : value) (e : Error) :
  In (called OpRefresh sent (Thrown e))
     (trace (run refreshAccessTokenIfNeeded st w)) ->
  let after := run refreshAccessTokenIfNeeded st w in
  result after = Normal tt
  /\ accessToken (final after) = accessToken st
  /\ REFRESH_TOKEN (final after) = REFRESH_TOKEN st
  /\ ACCESS_TOKEN_EXPIRES_AT (final after) = ACCESS_TOKEN_EXPIRES_AT st
  /\ refreshToken (final after) = REFRESH_TOKEN st
  /\ (refreshToken st = REFRESH_TOKEN st -> final after = st).
Proof.
  intros Hin after. subst after.
  rewrite refresh_never_throws, refresh_final.
  rewrite refresh_trace in Hin. revert Hin. unfold refresh_outcome.
  destruct (due st w); [| intros []].
  destruct (refreshAccessToken _ _) as [[data | err] w'].
  - cbn [and_next].
    destruct (refresh_payload data) as [[access expiresIn] | err];
      cbn [snd]; intros [Hin | [Hin | []]]; discriminate.
  - cbn [and_next snd fst]. intros _. unfold resynced. cbn.
    repeat split. intros Hsync. destruct st; cbn in *. now subst.
Qed.

(** The same holds for whatever the [catch] of lines 165-167 catches: a
    provider call that throws, or an answer without a body. *)
Lemma caught_refresh_keeps_credentials (st : Store) (w : W) (e : Error) :
  In (console_error "Failed to refresh token:" e)
     (trace (run refreshAccessTokenIfNeeded st w)) ->
  final (run refreshAccessTokenIfNeeded st w) = resynced st.
Proof.
  rewrite refresh_final, refresh_trace. unfold refresh_outcome.
  destruct (due st w); [| intros []].
  destruct (refreshAccessToken _ _) as [answer w'].
  destruct (and_next answer _) as [[access expiresIn] | err]; cbn [snd fst].
  - intros [Hin | [Hin | []]]; discriminate.
  - reflexivity.
Qed.

End CredentialStore.

(** ** The OAuth callback *)

Section AuthFlow.

Context {RT : Runtime} {W : Type} {WD : World W}.

Lemma carries_body_payload (data : value) :
  carries_body data = true ->
  exists access refresh expiresIn,
    grant_payload data = Normal (access, refresh, expiresIn).
Proof.
  unfold carries_body, grant_payload.
  destruct (get data "body") as [body | e]; [| discriminate].
  intros Hbody. apply negb_true_iff in Hbody. cbn [and_next].
  destruct (get_defined body "access_token" Hbody) as [a ->].
  destruct (get_defined body "refresh_token" Hbody) as [r ->].
  destruct (get_defined body "expires_in" Hbody) as [x ->].
  cbn [and_next]. eauto.
Qed.

(** After a code exchange that succeeded, the callback redirects to
    [return_path] of the state parameter. *)
Lemma callback_redirects (q : list (string * value)) (st : Store) (w : W)
    (data : value) :
  truthy (query q "code") = true ->
  fst (authorizationCodeGrant (query q "code") w) = Normal data ->
  carries_body data = true ->
  result (run (callback q) st w) = Normal (redirect (return_path (query q "state"))).
Proof.
  intros Hcode Hgrant Hbody. rewrite callback_run. cbv zeta. rewrite Hcode.
  destruct (authorizationCodeGrant _ _) as [answer w']. cbn [fst] in Hgrant.
  subst answer. cbn [and_next].
  destruct (carries_body_payload data Hbody) as (a & r & x & ->).
  reflexivity.
Qed.

(** C1. After a successful code exchange the callback redirects to the
    percent-decoded state when that is non-empty and starts with ["/"],
    and to ["/"] otherwise; a state decoding to
    ["https://evil.example/x"] gives ["/"], one decoding to ["/dashboard"]
    gives ["/dashboard"]. *)
Theorem callback_redirect_is_internal_path (q : list (string * value))
    (st : Store) (w : W) (data : value) :
  truthy (query q "code") = true ->
  fst (authorizationCodeGrant (query q "code") w) = Normal data ->
  carries_body data = true ->
  let state := ToString (or_else (query q "state") (VStr EmptyString)) in
  let answer := result (run (callback q) st w) in
  (forall decoded,
      decodeURIComponent state = Normal decoded ->
      decoded <> EmptyString -> startsWith decoded "/" = true ->
      answer = Normal (redirect decoded))
  /\ (forall decoded,
         decodeURIComponent state = Normal decoded ->
         decoded = EmptyString \/ startsWith decoded "/" = false ->
         answer = Normal (redirect "/"))
  /\ (decodeURIComponent state = Normal "https://evil.example/x" ->
      answer = Normal (redirect "/"))
  /\ (decodeURIComponent state = Normal "/dashboard" ->
      answer = Normal (redirect "/dashboard")).
Proof.
  intros Hcode Hgrant Hbody state answer. subst state answer.
  rewrite (callback_redirects q st w data Hcode Hgrant Hbody).
  unfold return_path.
  repeat split.
  - intros decoded -> Hne Hslash. rewrite Hslash.
    apply String.eqb_neq in Hne. now rewrite Hne.
  - intros decoded -> [-> | Hslash]; [reflexivity |].
    rewrite Hslash. now rewrite andb_false_r.
  - intros ->. reflexivity.
  - intros ->. reflexivity.
Qed.

(** C10. When the code exchange succeeds and decoding the state parameter
    throws, the callback still answers with a redirect, to ["/"]. *)
Theorem callback_survives_malformed_state (q : list (string * value))
    (st : Store) (w : W) (data : value) (e : Error) :
  truthy (query q "code") = true ->
  fst (authorizationCodeGrant (query q "code") w) = Normal data ->
  carries_body data = true ->
  decodeURIComponent (ToString (or_else (query q "state") (VStr EmptyString)))
    = Thrown e ->
  result (run (callback q) st w) = Normal (redirect "/").
Proof.
  intros Hcode Hgrant Hbody Hdecode.
  rewrite (callback_redirects q st w data Hcode Hgrant Hbody).
  unfold return_path. now rewrite Hdecode.
Qed.

End AuthFlow.

(** ** The playback proxy: [GET /now-playing] *)

Section PlaybackProxy.

Context {RT : Runtime} {W : Type} {WD : World W}.

(** [CLIENT_ID] and [CLIENT_SECRET] are [null] or a non-empty string. *)
Lemma configured_or_null (k : string) :
  or_else (env k) VNull = VNull
  \/ exists s, s <> EmptyString /\ process_env k = Some s
               /\ or_else (env k) VNull = VStr s.
Proof.
  unfold or_else, env. destruct (process_env k) as [s |]; [| now left].
  cbn [truthy]. destruct (s =? EmptyString)%string eqn:Hs; cbn [negb];
    [now left | right].
  apply String.eqb_neq in Hs. eauto.
Qed.

Lemma truthy_nonempty (s : string) : s <> EmptyString -> truthy (VStr s) = true.
Proof.
  intros Hs. apply String.eqb_neq in Hs. cbn [truthy]. now rewrite Hs.
Qed.

Lemma authPossible_iff :
  authPossible = true <-> CLIENT_ID <> VNull /\ CLIENT_SECRET <> VNull.
Proof.
  unfold authPossible, and_then, CLIENT_ID, CLIENT_SECRET.
  destruct (configured_or_null "SPOTIFY_CLIENT_ID") as [-> | (i & Hi & _ & ->)].
  - cbn [truthy]. split; [discriminate | intros [Hid _]; now elim Hid].
  - rewrite (truthy_nonempty i Hi).
    destruct (configured_or_null "SPOTIFY_CLIENT_SECRET")
      as [-> | (s & Hs & _ & ->)].
    + cbn [truthy]. split; [discriminate | intros [_ Hsecret]; now elim Hsecret].
    + rewrite (truthy_nonempty s Hs). split; [| reflexivity].
      intros _. split; discriminate.
Qed.

Lemma unauthenticated_after_refresh (st : Store) (w : W) :
  truthy (accessToken (final (run refreshAccessTokenIfNeeded st w))) = false ->
  run now_playing st w =
  (Normal not_authenticated, snd (run refreshAccessTokenIfNeeded st w)).
Proof.
  rewrite refresh_final, now_playing_run. unfold run. rewrite refresh_run.
  destruct (refresh_outcome st w) as [[st1 w1] d1]. cbn [fst snd].
  intros ->. reflexivity.
Qed.

(** C5. A [/now-playing] request that finds no access token once the
    refresh step is over (skipped, failed or otherwise) is answered 401
    with [error] and [auth_possible]; [auth_possible] is [false] when the
    client id or the client secret is absent and [true] when both are
    present. *)
Theorem now_playing_unauthenticated (st : Store) (w : W) :
  truthy (accessToken (final (run refreshAccessTokenIfNeeded st w))) = false ->
  result (run now_playing st w) =
    Normal (json 401 (VObj [("error", VStr "Not authenticated. Visit /login");
                            ("auth_possible", VBool authPossible)]))
  /\ (CLIENT_ID = VNull \/ CLIENT_SECRET = VNull -> authPossible = false)
  /\ (CLIENT_ID <> VNull -> CLIENT_SECRET <> VNull -> authPossible = true).
Proof.
  intros Htoken. rewrite (unauthenticated_after_refresh st w Htoken).
  split; [reflexivity |]. split.
  - intros Habsent. apply not_true_is_false. rewrite authPossible_iff. tauto.
  - intros Hid Hsecret. apply authPossible_iff. tauto.
Qed.

(** No token before the request and a refresh that is skipped or fails:
    the 401 answer. *)
Lemma unauthenticated_when_refresh_skipped_or_failed (st : Store) (w : W) :
  truthy (accessToken st) = false ->
  due st w = false
  \/ (exists e, fst (refreshAccessToken (REFRESH_TOKEN st) w) = Thrown e) ->
  result (run now_playing st w) = Normal not_authenticated.
Proof.
  intros Htoken Hrefresh. rewrite unauthenticated_after_refresh; [reflexivity |].
  rewrite refresh_final. unfold refresh_outcome.
  destruct (due st w); [| exact Htoken].
  destruct Hrefresh as [Hskip | [e He]]; [discriminate |].
  destruct (refreshAccessToken _ _) as [answer w']. cbn [fst] in He. subst answer.
  exact Htoken.
Qed.

Lemma no_session_projection (data : value) (now : Z) :
  get data "body" = Normal VUndefined \/ get data "body" = Normal VNull
  \/ get data "status" = Normal (VNum (Int 204)) ->
  project data now = Normal None.
Proof.
  unfold project. intros [-> | [-> | Hstatus]]; try reflexivity.
  destruct data; cbn [get] in *; try discriminate.
  rewrite Hstatus. cbn [and_next]. destruct (truthy _); reflexivity.
Qed.

(** The test of line 176: an answer without a body, or with 204 under
    [status], gives [{is_playing: false, item: null}]. *)
Lemma line_176_answers_no_session (st : Store) (w : W) (token data : value) :
  In (called OpPlaybackState token (Normal data)) (trace (run now_playing st w)) ->
  get data "body" = Normal VUndefined \/ get data "body" = Normal VNull
  \/ get data "status" = Normal (VNum (Int 204)) ->
  result (run now_playing st w) =
    Normal (json 200 (VObj [("is_playing", VBool false); ("item", VNull)])).
Proof.
  intros Hcall Hnone. pose proof (playback_called_inv st w token _ Hcall) as Hinv.
  rewrite now_playing_run.
  destruct (refresh_outcome st w) as [[st1 w1] d1].
  destruct Hinv as (-> & Htoken & Hanswer). cbv zeta. rewrite Htoken.
  destruct (getMyCurrentPlaybackState _ _) as [answer w2]. cbn [fst] in Hanswer.
  subst answer. cbn [and_next]. now rewrite no_session_projection.
Qed.

(** A run whose playback-state call resolved, from that call on. *)
Lemma resolved_run (st : Store) (w : W) (token data : value) :
  In (called OpPlaybackState token (Normal data)) (trace (run now_playing st w)) ->
  exists st1 w2 t,
    run now_playing st w =
    match project data (Date_now w2) with
    | Normal (Some out) =>
        let (out', logged) := augment w2 out in
        (Normal (json 200 out'), mkMachine st1 w2 (t ++ logged)%list)
    | Normal None => (Normal no_session, mkMachine st1 w2 t)
    | Thrown err =>
        (Normal (failed err),
         mkMachine st1 w2 (t ++ [console_error "now-playing error" err])%list)
    end.
Proof.
  intros Hcall. pose proof (playback_called_inv st w token _ Hcall) as Hinv.
  rewrite now_playing_run.
  destruct (refresh_outcome st w) as [[st1 w1] d1].
  destruct Hinv as (-> & Htoken & Hanswer). cbv zeta. rewrite Htoken.
  destruct (getMyCurrentPlaybackState _ _) as [answer w2]. cbn [fst] in Hanswer.
  subst answer. cbn [and_next]. exists st1, w2. eexists. reflexivity.
Qed.





End PlaybackProxy.

(** ** The canvas lookup *)

Section AssetAugmenter.

Context {RT : Runtime} {W : Type} {WD : World W}.

Lemma lookup_assign_same (k : string) (x : value) (props : list (string * value)) :
  lookup k (assign k x props) = Some x.
Proof.
  induction props as [| [k' v] rest IH]; cbn [assign lookup].
  - now rewrite String.eqb_refl.
  - destruct (k' =? k)%string eqn:Hk; cbn [lookup].
    + now rewrite String.eqb_refl.
    + now rewrite Hk.
Qed.


(** The item of a projected response never carries a [canvas_url]. *)
Lemma projected_without_canvas (item projected : value) :
  project_item item = Normal projected ->
  canvas_url_of projected = VUndefined.
Proof.
  unfold project_item. destruct (truthy item); cbn [negb];
    [| intros [= <-]; reflexivity].
  repeat match goal with
         | |- and_next ?c _ = _ -> _ => destruct c; cbn [and_next]; try discriminate
         end.
  intros [= <-]. reflexivity.
Qed.



End AssetAugmenter.

(** ** The canvas lookup inside [GET /now-playing] *)

Section BestEffortAugmentation.

Context {RT : Runtime} {W : Type} {WD : World W}.

Lemma project_shape (data : value) (now : Z) (out : value) :
  project data now = Normal (Some out) ->
  exists is_playing progress_ms item,
    out = VObj [("is_playing", is_playing); ("progress_ms", progress_ms);
                ("timestamp", VNum (Int now)); ("item", item)]
    /\ canvas_url_of item = VUndefined.
Proof.
  unfold project.
  destruct (get data "body") as [body | e]; cbn [and_next]; [| discriminate].
  destruct (truthy body); cbn [negb]; [| discriminate].
  destruct (get data "status") as [status | e]; cbn [and_next]; [| discriminate].
  destruct (is_204 status); [discriminate |].
  destruct (get body "item") as [item | e]; cbn [and_next]; [| discriminate].
  destruct (get body "progress_ms") as [progress | e]; cbn [and_next];
    [| discriminate].
  destruct (get body "is_playing") as [playing | e]; cbn [and_next];
    [| discriminate].
  destruct (project_item item) as [projected | e] eqn:Hitem; cbn [and_next];
    [| discriminate].
  intros [= <-]. do 3 eexists. split; [reflexivity |].
  exact (projected_without_canvas item projected Hitem).
Qed.

(** The line ["Failed to parse canvas.json"] is written exactly when the
    lookup reaches [canvas.json] and reading or parsing it throws. *)
Lemma canvas_json_failure_logged (w : W) (id : value) (e : Error) :
  lookup_canvas w id = Thrown e <->
  existsSync w (mp4_of id) = false /\ existsSync w (webm_of id) = false
  /\ existsSync w mapFile = true
  /\ (readFileSync w mapFile = Thrown e
      \/ exists text, readFileSync w mapFile = Normal text
                      /\ JSON_parse text = Thrown e).
Proof.
  unfold lookup_canvas.
  destruct (existsSync w (mp4_of id)); [split; [discriminate | intros [? _]; discriminate] |].
  destruct (existsSync w (webm_of id));
    [split; [discriminate | intros (_ & ? & _); discriminate] |].
  destruct (existsSync w mapFile);
    [| split; [discriminate | intros (_ & _ & ? & _); discriminate]].
  destruct (readFileSync w mapFile) as [text | e1]; cbn [and_next].
  - destruct (JSON_parse text) as [mapping | e2] eqn:Hparse; cbn [and_next].
    + split.
      * destruct (truthy mapping) eqn:Hm; cbn [negb]; [| discriminate].
        destruct (get_defined mapping (ToString id) (truthy_not_nullish _ Hm))
          as [entry ->].
        discriminate.
      * intros (_ & _ & _ & [Hread | (text' & [= <-] & Hthrown)]);
          [discriminate | congruence].
    + split.
      * intros [= ->]. repeat split. right. eauto.
      * intros (_ & _ & _ & [Hread | (text' & [= <-] & Hthrown)]);
          [discriminate | congruence].
  - split.
    + intros [= ->]. repeat split. now left.
    + intros (_ & _ & _ & [[= ->] | (text' & Hread & _)]);
        [reflexivity | discriminate].
Qed.

(** A request that logs ["Failed to parse canvas.json"] is answered 200
    with the usual object, and its [item] carries no [canvas_url]. *)
Lemma logged_canvas_failure_is_answered (st : Store) (w : W) (e : Error) :
  In (console_error "Failed to parse canvas.json" e) (trace (run now_playing st w)) ->
  exists is_playing progress_ms timestamp item,
    result (run now_playing st w) =
      Normal (json 200 (VObj [("is_playing", is_playing);
                              ("progress_ms", progress_ms);
                              ("timestamp", timestamp);
                              ("item", item)]))
    /\ canvas_url_of item = VUndefined.
Proof.
  rewrite now_playing_run.
  pose proof (refresh_outcome_effects st w) as F. rewrite Forall_forall in F.
  destruct (refresh_outcome st w) as [[st1 w1] d1]. cbn [snd] in F. cbv zeta.
  assert (Hd1 : ~ In (console_error "Failed to parse canvas.json" e) d1).
  { intros Hin. apply F in Hin. discriminate Hin. }
  destruct (truthy (accessToken st1));
    [| intros Hin; now apply Hd1 in Hin].
  destruct (getMyCurrentPlaybackState _ _) as [answer w2].
  destruct (and_next answer _) as [[out |] | err] eqn:Hproject;
    unfold trace, result; cbn [fst snd effects].
  - pose proof (augment_effects w2 out) as A.
    destruct (augment w2 out) as [out' d3]. cbn [fst snd effects] in *.
    intros Hin. apply in_app_or in Hin. destruct Hin as [Hin | Hin].
    + apply in_app_or in Hin. destruct Hin as [Hin | [Hin | []]];
        [contradiction | discriminate].
    + destruct (A _ Hin) as (err & _ & -> & _).
      destruct answer as [data | err']; cbn [and_next] in Hproject;
        [| discriminate].
      destruct (project_shape _ _ _ Hproject) as (p & g & i & -> & Hcanvas).
      now exists p, g, (VNum (Int (Date_now w2))), i.
  - intros Hin. apply in_app_or in Hin. destruct Hin as [Hin | [Hin | []]];
      [contradiction | discriminate].
  - intros Hin. apply in_app_or in Hin. destruct Hin as [Hin | [Hin | []]].
    + apply in_app_or in Hin. destruct Hin as [Hin | [Hin | []]];
        [contradiction | discriminate].
    + discriminate.
Qed.

(** C8. A [/now-playing] request that comes to read [canvas.json] (the
    provider sent a track that projects, with an id and no local [.mp4] or
    [.webm], and [canvas.json] exists) and finds that reading it or parsing
    it throws is still answered 200 with the usual object: the projected
    track as [item], no [canvas_url] on it; the failure is only logged. *)
Theorem canvas_json_failure_is_absorbed (st : Store) (w : W)
    (token data body status item projected : value) (e : Error) :
  In (called OpPlaybackState token (Normal data)) (trace (run now_playing st w)) ->
  get data "body" = Normal body ->
  truthy body = true ->
  get data "status" = Normal status ->
  is_204 status = false ->
  get body "item" = Normal item ->
  project_item item = Normal projected ->
  let id := id_of projected in
  let disk := world (snd (run now_playing st w)) in
  truthy id = true ->
  existsSync disk (mp4_of id) = false ->
  existsSync disk (webm_of id) = false ->
  existsSync disk mapFile = true ->
  readFileSync disk mapFile = Thrown e
  \/ (exists text, readFileSync disk mapFile = Normal text
                   /\ JSON_parse text = Thrown e) ->
  (exists is_playing progress_ms timestamp,
     result (run now_playing st w)
     = Normal (json 200 (VObj [("is_playing", is_playing);
                               ("progress_ms", progress_ms);
                               ("timestamp", timestamp);
                               ("item", projected)])))
  /\ canvas_url_of projected = VUndefined
  /\ In (console_error "Failed to parse canvas.json" e)
        (trace (run now_playing st w)).
Proof.
  intros Hcall Hbody Htruthy Hstatus H204 Hitem Hprojected id.
  destruct (resolved_run st w token data Hcall) as (st1 & w2 & t & ->).
  pose proof (truthy_not_nullish body Htruthy) as Hdefined.
  destruct (get_defined body "progress_ms" Hdefined) as [progress Hprogress].
  destruct (get_defined body "is_playing" Hdefined) as [playing Hplaying].
  assert (Hproject :
    project data (Date_now w2)
    = Normal (Some (VObj [("is_playing", or_else playing (VBool false));
                          ("progress_ms", or_else progress (VNum (Int 0)));
                          ("timestamp", VNum (Int (Date_now w2)));
                          ("item", projected)]))).
  { unfold project. rewrite Hbody. cbn [and_next]. rewrite Htruthy. cbn [negb].
    rewrite Hstatus. cbn [and_next]. rewrite H204, Hitem. cbn [and_next].
    rewrite Hprogress, Hplaying. cbn [and_next]. now rewrite Hprojected. }
  rewrite Hproject.
  set (out := VObj [("is_playing", or_else playing (VBool false));
                    ("progress_ms", or_else progress (VNum (Int 0)));
                    ("timestamp", VNum (Int (Date_now w2)));
                    ("item", projected)]).
  assert (Hout : item_of out = projected) by reflexivity.
  destruct (augment w2 out) as [out' logged] eqn:Haugment.
  cbv zeta. cbn [snd world].
  intros Hid Hmp4 Hwebm Hmap Hfail.
  assert (Hlookup : lookup_canvas w2 id = Thrown e).
  { apply canvas_json_failure_logged. auto. }
  assert (Hpresent : truthy projected = true).
  { subst id. destruct projected; try discriminate; reflexivity. }
  revert Haugment. unfold augment. rewrite Hout. fold id.
  rewrite Hpresent, Hid, Hlookup. cbn [andb]. intros [= <- <-].
  cbn [result trace fst snd effects].
  split; [now exists (or_else playing (VBool false)),
                     (or_else progress (VNum (Int 0))),
                     (VNum (Int (Date_now w2))) |].
  split; [exact (projected_without_canvas item projected Hprojected) |].
  apply in_or_app. right. now left.
Qed.

End BestEffortAugmentation.

(** ** Stores reached with a provider that always issues an access token *)

Section ConformingProvider.

Context {RT : Runtime} {W : Type} {WD : World W}.

Hypothesis grant_issues_token :
  forall code (w : W) data access refresh expiresIn,
    fst (authorizationCodeGrant code w) = Normal data ->
    grant_payload data = Normal (access, refresh, expiresIn) ->
    truthy access = true.

Hypothesis refresh_issues_token :
  forall sent (w : W) data access expiresIn,
    fst (refreshAccessToken sent w) = Normal data ->
    refresh_payload data = Normal (access, expiresIn) ->
    truthy access = true.

Let authenticated_when_refreshable (st : Store) : Prop :=
  truthy (REFRESH_TOKEN st) = true -> truthy (accessToken st) = true.

Lemma refresh_keeps_token (st : Store) (w : W) :
  authenticated_when_refreshable st ->
  authenticated_when_refreshable (final (run refreshAccessTokenIfNeeded st w)).
Proof.
  rewrite refresh_final. unfold refresh_outcome.
  destruct (due st w); [| trivial].
  pose proof (refresh_issues_token (REFRESH_TOKEN st) w) as Hissue.
  destruct (refreshAccessToken _ _) as [[data | e] w']; cbn [and_next fst] in *.
  - destruct (refresh_payload data) as [[access expiresIn] | e] eqn:Hpayload.
    + intros _ _. exact (Hissue data access expiresIn eq_refl Hpayload).
    + intros Hst. exact Hst.
  - intros Hst. exact Hst.
Qed.

Lemma reachable_token (st : Store) :
  reachable st -> authenticated_when_refreshable st.
Proof.
  induction 1 as [| st st' _ IH Hstep].
  - intros Hheld. discriminate Hheld.
  - destruct Hstep as [q w | w | w].
    + rewrite callback_run. cbv zeta.
      destruct (truthy (query q "code")); [| exact IH].
      pose proof (grant_issues_token (query q "code") w) as Hissue.
      destruct (authorizationCodeGrant _ _) as [[data | e] w'];
        cbn [and_next fst] in *; [| exact IH].
      destruct (grant_payload data) as [[[access refresh] expiresIn] | e]
        eqn:Hpayload; [| exact IH].
      intros _. exact (Hissue data access refresh expiresIn eq_refl Hpayload).
    + now apply refresh_keeps_token.
    + rewrite now_playing_final. now apply refresh_keeps_token.
Qed.

(** X28. In a reachable store without an access token there is no refresh
    token either: the refresh step is skipped and [/now-playing] answers
    401, whatever the world. *)
Lemma reachable_unauthenticated (st : Store) (w : W) :
  reachable st ->
  truthy (accessToken st) = false ->
  result (run now_playing st w) = Normal not_authenticated.
Proof.
  intros Hreach Htoken.
  apply unauthenticated_when_refresh_skipped_or_failed; [exact Htoken |].
  left. unfold due.
  destruct (truthy (REFRESH_TOKEN st)) eqn:Hheld; [| reflexivity].
  apply (reachable_token st Hreach) in Hheld. congruence.
Qed.

End ConformingProvider.

(** ** The edges of the number and error models *)

Section Edges.

Context {RT : Runtime} {W : Type} {WD : World W}.

(** An expiry that is not a number (a token answer without a numeric
    [expires_in]) compares false with every clock: a held refresh token is
    then refreshed on every request. *)
Remark refresh_when_expiry_is_NaN (st : Store) (w : W) :
  ACCESS_TOKEN_EXPIRES_AT st = NaN ->
  performed OpRefresh (trace (run refreshAccessTokenIfNeeded st w))
  = truthy (REFRESH_TOKEN st).
Proof.
  intros Hexp. rewrite refresh_performed_iff_due. unfold due. rewrite Hexp.
  cbn [sub lt negb]. apply andb_true_r.
Qed.

(** An error with neither name nor message prints as the empty string. *)
Remark blank_error_prints_empty :
  error_to_string (mkError EmptyString EmptyString) = EmptyString.
Proof. reflexivity. Qed.

End Edges.

(** * Further properties of the handlers *)

(** ** [GET /callback] *)

Section CallbackProperties.

Context {RT : Runtime} {W : Type} {WD : World W}.

Lemma return_path_is_internal (state : value) :
  startsWith (return_path state) "/" = true.
Proof.
  unfold return_path.
  destruct (decodeURIComponent _) as [decoded | e]; [| reflexivity].
  destruct (negb (decoded =? EmptyString)%string); cbn [andb]; [| reflexivity].
  destruct (startsWith decoded "/") eqn:Hslash; [exact Hslash | reflexivity].
Qed.

(** X1. The provider is asked for tokens exactly when the query carries a
    code; without one the callback answers 400 and nothing else happens. *)
Theorem callback_exchanges_iff_code (q : list (string * value)) (st : Store) (w : W) :
  performed OpCodeGrant (trace (run (callback q) st w)) = truthy (query q "code")
  /\ (truthy (query q "code") = false ->
      run (callback q) st w
      = (Normal (send 400 "Missing code"), mkMachine st w [])).
Proof.
  rewrite callback_run. cbv zeta.
  destruct (truthy (query q "code")); [| split; reflexivity].
  split; [| discriminate].
  destruct (authorizationCodeGrant _ _) as [answer w'].
  destruct (and_next answer _) as [[[access refresh] expiresIn] | e]; reflexivity.
Qed.

(** X2. The callback never throws and answers in one of three ways; it writes
    the store only when it redirects, then all four fields at once with
    the two copies of the refresh token equal, and the path it redirects
    to always starts with ["/"]. *)
Theorem callback_answers (q : list (string * value)) (st : Store) (w : W) :
  let r := run (callback q) st w in
  (result r = Normal (send 400 "Missing code") /\ final r = st)
  \/ (result r = Normal (send 500 "Auth error") /\ final r = st)
  \/ (exists path access refresh expiresAt,
         result r = Normal (redirect path)
         /\ startsWith path "/" = true
         /\ final r = mkStore access refresh refresh expiresAt).
Proof.
  cbv zeta. rewrite callback_run. cbv zeta.
  destruct (truthy (query q "code")); [| left; split; reflexivity].
  destruct (authorizationCodeGrant _ _) as [answer w'].
  destruct (and_next answer _) as [[[access refresh] expiresIn] | e].
  - right. right. do 4 eexists. split; [reflexivity |].
    split; [apply return_path_is_internal | reflexivity].
  - right. left. split; reflexivity.
Qed.

Lemma callback_success (q : list (string * value)) (st : Store) (w w' : W)
    (data access refresh expiresIn : value) :
  truthy (query q "code") = true ->
  authorizationCodeGrant (query q "code") w = (Normal data, w') ->
  grant_payload data = Normal (access, refresh, expiresIn) ->
  run (callback q) st w
  = (Normal (redirect (return_path (query q "state"))),
     mkMachine (mkStore access refresh refresh (expiry (Date_now w') expiresIn))
       w' [called OpCodeGrant (query q "code") (Normal data)]).
Proof.
  intros Hcode Hgrant Hpayload. rewrite callback_run. cbv zeta.
  rewrite Hcode, Hgrant. cbn [and_next]. now rewrite Hpayload.
Qed.

(** X3. A successful exchange stores what the provider issued: the access
    token, the refresh token in both places, and as expiry the clock read
    after the exchange plus [expires_in] seconds. *)
Theorem callback_stores_grant (q : list (string * value)) (st : Store) (w w' : W)
    (data access refresh expiresIn : value) :
  truthy (query q "code") = true ->
  authorizationCodeGrant (query q "code") w = (Normal data, w') ->
  grant_payload data = Normal (access, refresh, expiresIn) ->
  let after := final (run (callback q) st w) in
  accessToken after = access
  /\ refreshToken after = refresh
  /\ REFRESH_TOKEN after = refresh
  /\ (forall seconds, expiresIn = VNum (Int seconds) ->
      ACCESS_TOKEN_EXPIRES_AT after = Int (Date_now w' + seconds * 1000)).
Proof.
  intros Hcode Hgrant Hpayload after. subst after.
  rewrite (callback_success q st w w' data access refresh expiresIn
             Hcode Hgrant Hpayload).
  repeat split. intros seconds ->. reflexivity.
Qed.

Lemma fresh_store_is_not_refreshed (st : Store) (w : W) (expiresAt : Z) :
  ACCESS_TOKEN_EXPIRES_AT st = Int expiresAt ->
  Date_now w < expiresAt - 30000 ->
  run refreshAccessTokenIfNeeded st w = (Normal tt, mkMachine st w []).
Proof.
  intros Hexp Hfresh. unfold run. rewrite refresh_run.
  unfold refresh_outcome, due. rewrite Hexp. cbn [sub lt].
  apply Z.ltb_lt in Hfresh. rewrite Hfresh. cbn [negb].
  now rewrite andb_false_r.
Qed.

(** X4. The credential stored by a callback is left alone by the refresh step
    of every later request, until 30 s before it expires. *)
Theorem granted_credential_is_not_refreshed_early (q : list (string * value))
    (st : Store) (w w' later : W) (data access refresh : value) (seconds : Z) :
  truthy (query q "code") = true ->
  authorizationCodeGrant (query q "code") w = (Normal data, w') ->
  grant_payload data = Normal (access, refresh, VNum (Int seconds)) ->
  Date_now later < Date_now w' + seconds * 1000 - 30000 ->
  let granted := final (run (callback q) st w) in
  run refreshAccessTokenIfNeeded granted later
  = (Normal tt, mkMachine granted later []).
Proof.
  intros Hcode Hgrant Hpayload Hearly granted. subst granted.
  apply (fresh_store_is_not_refreshed _ later (Date_now w' + seconds * 1000));
    [| exact Hearly].
  now rewrite (callback_success q st w w' data access refresh _
                 Hcode Hgrant Hpayload).
Qed.

End CallbackProperties.

(** ** [refreshAccessTokenIfNeeded] *)

Section RefreshProperties.

Context {RT : Runtime} {W : Type} {WD : World W}.

(** X5. The refresh step always returns normally and never changes the stored
    refresh token, whatever the provider answers. *)
Theorem refresh_keeps_refresh_token (st : Store) (w : W) :
  result (run refreshAccessTokenIfNeeded st w) = Normal tt
  /\ REFRESH_TOKEN (final (run refreshAccessTokenIfNeeded st w))
     = REFRESH_TOKEN st.
Proof.
  split; [apply refresh_never_throws |].
  rewrite refresh_final. unfold refresh_outcome.
  destruct (due st w); [| reflexivity].
  destruct (refreshAccessToken _ _) as [answer w'].
  destruct (and_next answer _) as [[access expiresIn] | e]; reflexivity.
Qed.

(** X6. The refresh step calls the provider at most once, for a refresh and
    nothing else, and sends the stored refresh token. *)
Theorem refresh_sends_stored_token (st : Store) (w : W) :
  let t := trace (run refreshAccessTokenIfNeeded st w) in
  (List.length (filter (is_call OpRefresh) t) <= 1)%nat
  /\ performed OpCodeGrant t = false
  /\ performed OpPlaybackState t = false
  /\ (forall op sent answer,
         In (called op sent answer) t ->
         op = OpRefresh /\ sent = REFRESH_TOKEN st /\ truthy sent = true
         /\ answer = fst (refreshAccessToken sent w)).
Proof.
  cbv zeta. rewrite refresh_trace. unfold refresh_outcome, due.
  assert (Hnone : (List.length (filter (is_call OpRefresh) (@nil effect)) <= 1)%nat
                  /\ performed OpCodeGrant [] = false
                  /\ performed OpPlaybackState [] = false
                  /\ (forall op sent answer,
                         In (called op sent answer) [] ->
                         op = OpRefresh /\ sent = REFRESH_TOKEN st
                         /\ truthy sent = true
                         /\ answer = fst (refreshAccessToken sent w))).
  { split; [cbn; lia |]. split; [reflexivity |]. split; [reflexivity |].
    intros op sent answer []. }
  destruct (truthy (REFRESH_TOKEN st)) eqn:Hheld; cbn [andb]; [| exact Hnone].
  destruct (negb _); [| exact Hnone].
  destruct (refreshAccessToken _ _) as [answer w'] eqn:Hcall.
  destruct (and_next answer _) as [[access expiresIn] | e]; cbn [snd];
    (split; [cbn; lia |]); (split; [reflexivity |]); (split; [reflexivity |]);
    intros op sent answer' [Hin | [Hin | []]]; try discriminate;
    injection Hin as <- <- <-; rewrite Hcall; auto.
Qed.

Lemma refresh_success (st : Store) (w : W) (sent data access expiresIn : value) :
  In (called OpRefresh sent (Normal data))
     (trace (run refreshAccessTokenIfNeeded st w)) ->
  refresh_payload data = Normal (access, expiresIn) ->
  exists w',
    run refreshAccessTokenIfNeeded st w
    = (Normal tt,
       mkMachine (refreshed st access (expiry (Date_now w') expiresIn)) w'
         [called OpRefresh (REFRESH_TOKEN st) (Normal data);
          console_log [VStr "Refreshed access token, expires in"; expiresIn; VStr "s"]])
    /\ snd (refreshAccessToken (REFRESH_TOKEN st) w) = w'.
Proof.
  intros Hin Hpayload. unfold run. rewrite refresh_run.
  rewrite refresh_trace in Hin. revert Hin. unfold refresh_outcome.
  destruct (due st w); [| intros []].
  destruct (refreshAccessToken _ _) as [[data' | e] w''] eqn:Hcall; cbn [and_next].
  - destruct (refresh_payload data') as [[access' expiresIn'] | e] eqn:Hp';
      cbn [snd]; intros [Hin | [Hin | []]]; try discriminate;
      injection Hin as _ <-; rewrite Hpayload in Hp'; try discriminate.
    injection Hp' as <- <-. exists w''. split; reflexivity.
  - cbn [snd]. intros [Hin | [Hin | []]]; discriminate.
Qed.

(** X7. A refresh the provider answers replaces the access token by the one
    issued and the expiry by the clock read after the call plus
    [expires_in] seconds; a refresh token in the answer is not taken. *)
Theorem successful_refresh_replaces_access_token (st : Store) (w : W)
    (sent data access expiresIn : value) :
  In (called OpRefresh sent (Normal data))
     (trace (run refreshAccessTokenIfNeeded st w)) ->
  refresh_payload data = Normal (access, expiresIn) ->
  let after := run refreshAccessTokenIfNeeded st w in
  accessToken (final after) = access
  /\ refreshToken (final after) = REFRESH_TOKEN st
  /\ REFRESH_TOKEN (final after) = REFRESH_TOKEN st
  /\ (forall seconds, expiresIn = VNum (Int seconds) ->
      ACCESS_TOKEN_EXPIRES_AT (final after)
      = Int (Date_now (world (snd after)) + seconds * 1000)).
Proof.
  intros Hin Hpayload after. subst after.
  destruct (refresh_success st w sent data access expiresIn Hin Hpayload)
    as (w' & -> & _).
  repeat split. intros seconds ->. reflexivity.
Qed.

(** X8. Right after a refresh the provider answered with [expires_in] above
    30 s, the refresh step of the next request does nothing, as long as
    the clock is more than 30 s before the new expiry. *)
Theorem refreshed_credential_is_not_refreshed_early (st : Store) (w later : W)
    (sent data access : value) (seconds : Z) :
  In (called OpRefresh sent (Normal data))
     (trace (run refreshAccessTokenIfNeeded st w)) ->
  refresh_payload data = Normal (access, VNum (Int seconds)) ->
  let after := run refreshAccessTokenIfNeeded st w in
  Date_now later < Date_now (world (snd after)) + seconds * 1000 - 30000 ->
  run refreshAccessTokenIfNeeded (final after) later
  = (Normal tt, mkMachine (final after) later []).
Proof.
  intros Hin Hpayload after. subst after.
  destruct (refresh_success st w sent data access _ Hin Hpayload)
    as (w' & -> & _).
  cbn [snd world final store]. intros Hearly.
  now apply (fresh_store_is_not_refreshed _ later (Date_now w' + seconds * 1000)).
Qed.

End RefreshProperties.

(** ** [GET /now-playing] *)

Section SnapshotProperties.

Context {RT : Runtime} {W : Type} {WD : World W}.

(** X9. [/now-playing] never throws: it answers 200, 401 or 500. *)
Theorem now_playing_always_answers (st : Store) (w : W) :
  exists status body,
    result (run now_playing st w) = Normal (json status body)
    /\ (status = 200 \/ status = 401 \/ status = 500).
Proof.
  rewrite now_playing_run.
  destruct (refresh_outcome st w) as [[st1 w1] d1]. cbv zeta.
  destruct (truthy (accessToken st1)); [| do 2 eexists; split; [reflexivity | auto]].
  destruct (getMyCurrentPlaybackState _ _) as [answer w2].
  destruct (and_next answer _) as [[out |] | err].
  - destruct (augment w2 out) as [out' d3].
    do 2 eexists; split; [reflexivity | auto].
  - do 2 eexists; split; [reflexivity | auto].
  - do 2 eexists; split; [reflexivity | auto].
Qed.

(** X10. The playback state is asked for exactly when an access token is held
    once the refresh step is over, and the call sends that token. *)
Theorem playback_state_is_asked_with_held_token (st : Store) (w : W) :
  let held := accessToken (final (run refreshAccessTokenIfNeeded st w)) in
  performed OpPlaybackState (trace (run now_playing st w)) = truthy held
  /\ (forall token answer,
         In (called OpPlaybackState token answer) (trace (run now_playing st w)) ->
         token = held).
Proof.
  cbv zeta. split.
  - rewrite refresh_final, now_playing_run.
    pose proof (refresh_outcome_effects st w) as F.
    destruct (refresh_outcome st w) as [[st1 w1] d1]. cbn [fst snd] in *.
    assert (Hd1 : existsb (is_call OpPlaybackState) d1 = false).
    { clear - F. induction F as [| e d He _ IH]; [reflexivity |].
      cbn [existsb]. rewrite IH.
      destruct e as [[] ? ? | |]; cbn in He |- *; tauto. }
    cbv zeta. unfold performed, trace.
    destruct (truthy (accessToken st1)); [| exact Hd1].
    destruct (getMyCurrentPlaybackState _ _) as [answer w2].
    destruct (and_next answer _) as [[out |] | err]; cbn [snd effects].
    + destruct (augment w2 out) as [out' d3]. cbn [snd effects].
      rewrite !existsb_app. cbn [existsb is_call]. now rewrite orb_true_r.
    + rewrite existsb_app. cbn [existsb is_call]. now rewrite orb_true_r.
    + rewrite !existsb_app. cbn [existsb is_call]. now rewrite orb_true_r.
  - intros token answer Hin.
    pose proof (playback_called_inv st w token answer Hin) as Hinv.
    rewrite refresh_final.
    destruct (refresh_outcome st w) as [[st1 w1] d1].
    now destruct Hinv as (-> & _).
Qed.

(** X11. [/now-playing] leaves the store as its refresh step leaves it. *)
Theorem now_playing_writes_only_through_refresh (st : Store) (w : W) :
  final (run now_playing st w) = final (run refreshAccessTokenIfNeeded st w).
Proof. exact (now_playing_final st w). Qed.

Lemma playback_answer (st : Store) (w : W) (token data : value) :
  In (called OpPlaybackState token (Normal data)) (trace (run now_playing st w)) ->
  exists m,
    run now_playing st w =
    match project data (Date_now (world m)) with
    | Normal (Some out) =>
        (Normal (json 200 (fst (augment (world m) out))), m)
    | Normal None => (Normal no_session, m)
    | Thrown err => (Normal (failed err), m)
    end.
Proof.
  intros Hcall. pose proof (playback_called_inv st w token _ Hcall) as Hinv.
  rewrite now_playing_run.
  destruct (refresh_outcome st w) as [[st1 w1] d1].
  destruct Hinv as (-> & Htoken & Hanswer). cbv zeta. rewrite Htoken.
  destruct (getMyCurrentPlaybackState _ _) as [answer w2]. cbn [fst] in Hanswer.
  subst answer. cbn [and_next].
  destruct (project data (Date_now w2)) as [[out |] | err] eqn:Hp.
  - destruct (augment w2 out) as [out' d3] eqn:Ha.
    eexists (mkMachine _ w2 _). cbn [world]. rewrite Hp, Ha. reflexivity.
  - eexists (mkMachine _ w2 _). cbn [world]. rewrite Hp. reflexivity.
  - eexists (mkMachine _ w2 _). cbn [world]. rewrite Hp. reflexivity.
Qed.

(** X12. With a session but no track, the answer is the full object with
    [item: null]; a missing, zero or false [progress_ms] or [is_playing]
    comes out as [0] and [false], anything else as the provider sent it. *)
Theorem now_playing_defaults (st : Store) (w : W) (token data body status : value) :
  In (called OpPlaybackState token (Normal data)) (trace (run now_playing st w)) ->
  get data "body" = Normal body ->
  truthy body = true ->
  get data "status" = Normal status ->
  is_204 status = false ->
  (exists item, get body "item" = Normal item /\ truthy item = false) ->
  exists is_playing progress_ms timestamp,
    result (run now_playing st w)
    = Normal (json 200 (VObj [("is_playing", is_playing);
                              ("progress_ms", progress_ms);
                              ("timestamp", VNum (Int timestamp));
                              ("item", VNull)]))
    /\ (forall sent, get body "is_playing" = Normal sent ->
        is_playing = if truthy sent then sent else VBool false)
    /\ (forall sent, get body "progress_ms" = Normal sent ->
        progress_ms = if truthy sent then sent else VNum (Int 0)).
Proof.
  intros Hcall Hbody Htruthy Hstatus H204 (item & Hitem & Hnone).
  destruct (playback_answer st w token data Hcall) as (m & ->).
  unfold project. rewrite Hbody. cbn [and_next]. rewrite Htruthy. cbn [negb].
  rewrite Hstatus. cbn [and_next]. rewrite H204, Hitem. cbn [and_next].
  pose proof (truthy_not_nullish body Htruthy) as Hdefined.
  destruct (get_defined body "progress_ms" Hdefined) as [progress Hprogress].
  destruct (get_defined body "is_playing" Hdefined) as [playing Hplaying].
  rewrite Hprogress, Hplaying. cbn [and_next].
  unfold project_item. rewrite Hnone. cbn [negb and_next].
  unfold augment. cbn [item_of query lookup String.eqb Ascii.eqb Bool.eqb truthy andb fst].
  exists (or_else playing (VBool false)), (or_else progress (VNum (Int 0))),
    (Date_now (world m)).
  split; [reflexivity |]. split; intros sent [= <-]; reflexivity.
Qed.



(** X14. A track whose [artists] is not an array makes the request fail with
    500 and the [TypeError]; no partial item is sent. *)
Theorem malformed_track_is_reported (st : Store) (w : W)
    (token data body status item artists : value) :
  In (called OpPlaybackState token (Normal data)) (trace (run now_playing st w)) ->
  get data "body" = Normal body ->
  truthy body = true ->
  get data "status" = Normal status ->
  is_204 status = false ->
  get body "item" = Normal item ->
  truthy item = true ->
  get item "artists" = Normal artists ->
  (forall elems, artists <> VArr elems) ->
  exists msg,
    result (run now_playing st w) = Normal (failed (TypeError msg)).
Proof.
  intros Hcall Hbody Htruthy Hstatus H204 Hitem Hpresent Hartists Hshape.
  destruct (playback_answer st w token data Hcall) as (m & ->).
  unfold project. rewrite Hbody. cbn [and_next]. rewrite Htruthy. cbn [negb].
  rewrite Hstatus. cbn [and_next]. rewrite H204, Hitem. cbn [and_next].
  pose proof (truthy_not_nullish body Htruthy) as Hdefined.
  destruct (get_defined body "progress_ms" Hdefined) as [progress ->].
  destruct (get_defined body "is_playing" Hdefined) as [playing ->].
  cbn [and_next]. unfold project_item. rewrite Hpresent. cbn [negb].
  pose proof (truthy_not_nullish item Hpresent) as Hdefined'.
  destruct (get_defined item "id" Hdefined') as [id ->].
  destruct (get_defined item "name" Hdefined') as [name ->].
  rewrite Hartists. cbn [and_next].
  destruct artists; cbn [map_names and_next]; try (eexists; reflexivity).
  now elim (Hshape elems).
Qed.

End SnapshotProperties.

(** ** The canvas lookup *)

Section CanvasProperties.

Context {RT : Runtime} {W : Type} {WD : World W}.

Lemma lookup_assign_other (k k' : string) (x : value) (props : list (string * value)) :
  k' <> k -> lookup k' (assign k x props) = lookup k' props.
Proof.
  intros Hk. induction props as [| [k0 v] rest IH]; cbn [assign lookup].
  - apply String.eqb_neq in Hk. rewrite String.eqb_sym. now rewrite Hk.
  - destruct (k0 =? k)%string eqn:Hk0; cbn [lookup].
    + apply String.eqb_eq in Hk0. subst k0.
      apply not_eq_sym, String.eqb_neq in Hk. now rewrite Hk.
    + destruct (k0 =? k')%string; [reflexivity | exact IH].
Qed.

(** X15. [out.item.canvas_url = url] changes nothing else: every other
    property of the response, and every other property of its item, reads
    as before. *)
Theorem set_canvas_url_changes_nothing_else (out url : value) (k : string) :
  (k <> "item"%string -> get (set_canvas_url out url) k = get out k)
  /\ (k <> "canvas_url"%string ->
      get (item_of (set_canvas_url out url)) k = get (item_of out) k).
Proof.
  unfold set_canvas_url.
  destruct out as [| | | | | | props]; try (split; reflexivity).
  destruct (query props "item") as [| | | | | | item] eqn:Hitem;
    try (split; reflexivity).
  split; intros Hk.
  - cbn [get]. now rewrite lookup_assign_other.
  - cbn [item_of]. unfold query. rewrite lookup_assign_same.
    fold (query props "item"). rewrite Hitem. cbn [get].
    now rewrite lookup_assign_other.
Qed.

Lemma lookup_canvas_truthy (w : W) (id url : value) :
  lookup_canvas w id = Normal (Some url) -> truthy url = true.
Proof.
  unfold lookup_canvas.
  destruct (existsSync w (mp4_of id)); [intros [= <-]; reflexivity |].
  destruct (existsSync w (webm_of id)); [intros [= <-]; reflexivity |].
  destruct (existsSync w mapFile); [| discriminate].
  destruct (readFileSync w mapFile) as [text | e]; cbn [and_next]; [| discriminate].
  destruct (JSON_parse text) as [mapping | e]; cbn [and_next]; [| discriminate].
  destruct (negb (truthy mapping)); [discriminate |].
  destruct (get mapping _) as [entry | e]; cbn [and_next]; [| discriminate].
  destruct (truthy entry) eqn:Hentry; [| discriminate].
  now intros [= <-].
Qed.

(** X16. The canvas lookup never throws and leaves the store and the world as
    they are; the response comes back unchanged or with a truthy
    [canvas_url] set on its item. *)
Theorem canvas_detection_is_contained (out : value) (m : Machine W) :
  exists out' logged,
    canvas_detection out m
    = (Normal out', mkMachine (store m) (world m) (effects m ++ logged)%list)
    /\ (out' = out
        \/ exists url, truthy url = true /\ out' = set_canvas_url out url).
Proof.
  destruct m as [st w t]. rewrite canvas_detection_run. cbn [store world effects].
  unfold augment.
  destruct (truthy (item_of out) && truthy (id_of (item_of out)));
    [| do 2 eexists; split; [reflexivity | now left]].
  destruct (lookup_canvas w _) as [[url |] | e] eqn:Hlookup.
  - do 2 eexists; split; [reflexivity | right].
    exists url. split; [exact (lookup_canvas_truthy _ _ _ Hlookup) | reflexivity].
  - do 2 eexists; split; [reflexivity | now left].
  - do 2 eexists; split; [reflexivity | now left].
Qed.

(** X17. With no local file for the track, and a [canvas.json] that is
    missing, holds a falsy value or has no truthy entry for the id, the
    response is left as it is and nothing is logged. *)
Theorem canvas_absent_without_assets (out : value) (m : Machine W) :
  let id := id_of (item_of out) in
  let w := world m in
  existsSync w (mp4_of id) = false ->
  existsSync w (webm_of id) = false ->
  existsSync w mapFile = false
  \/ (exists text mapping,
        readFileSync w mapFile = Normal text
        /\ JSON_parse text = Normal mapping
        /\ (truthy mapping = false
            \/ exists entry, get mapping (ToString id) = Normal entry
                             /\ truthy entry = false)) ->
  canvas_detection out m = (Normal out, m).
Proof.
  intros id w Hmp4 Hwebm Hmapping. destruct m as [st w0 t]. cbn [world] in w.
  subst w. rewrite canvas_detection_run. unfold augment, lookup_canvas.
  fold id. rewrite Hmp4, Hwebm.
  destruct (truthy (item_of out) && truthy id); [| now rewrite app_nil_r].
  destruct (existsSync w0 mapFile) eqn:Hfile.
  - destruct Hmapping as [Hnone | (text & mapping & -> & Hparse & Hentry)];
      [discriminate |].
    cbn [and_next]. rewrite Hparse. cbn [and_next].
    destruct Hentry as [-> | (entry & Hget & Hfalsy)]; cbn [negb].
    + now rewrite app_nil_r.
    + destruct (truthy mapping); cbn [negb]; [| now rewrite app_nil_r].
      rewrite Hget. cbn [and_next]. rewrite Hfalsy. now rewrite app_nil_r.
  - now rewrite app_nil_r.
Qed.

(** X18. Without a track, or with a track that has no id, the lookup does
    nothing, whatever is on disk. *)
Theorem no_track_no_canvas (out : value) (m : Machine W) :
  truthy (id_of (item_of out)) = false ->
  canvas_detection out m = (Normal out, m).
Proof.
  intros Hid. destruct m as [st w t]. rewrite canvas_detection_run.
  unfold augment. rewrite Hid, andb_false_r. now rewrite app_nil_r.
Qed.

End CanvasProperties.

(** ** Configuration and [GET /login] *)

Section LoginProperties.

Context {RT : Runtime} {AZ : Authorize} {W : Type} {WD : World W}.

(** X19. OAuth counts as configured exactly when both environment variables
    are set to non-empty strings: an empty one is as good as unset. *)
Theorem authPossible_iff_env_set :
  authPossible = true <->
  exists id secret,
    process_env "SPOTIFY_CLIENT_ID" = Some id /\ id <> EmptyString
    /\ process_env "SPOTIFY_CLIENT_SECRET" = Some secret /\ secret <> EmptyString.
Proof.
  rewrite authPossible_iff. unfold CLIENT_ID, CLIENT_SECRET.
  destruct (configured_or_null "SPOTIFY_CLIENT_ID") as [Hid | (i & Hi & Hei & Hid)];
    destruct (configured_or_null "SPOTIFY_CLIENT_SECRET")
      as [Hs | (s & Hs' & Hes & Hs)]; rewrite Hid, Hs; split.
  - intros [Hneq _]. now elim Hneq.
  - intros (i & s & Hei & Hi & Hes & Hs').
    exfalso. revert Hid. unfold or_else, env. rewrite Hei. cbn [truthy].
    apply String.eqb_neq in Hi. rewrite Hi. discriminate.
  - intros [Hneq _]. now elim Hneq.
  - intros (i & s0 & Hei & Hi & _).
    exfalso. revert Hid. unfold or_else, env. rewrite Hei. cbn [truthy].
    apply String.eqb_neq in Hi. rewrite Hi. discriminate.
  - intros [_ Hneq]. now elim Hneq.
  - intros (i0 & s & _ & _ & Hes & Hs').
    exfalso. revert Hs. unfold or_else, env. rewrite Hes. cbn [truthy].
    apply String.eqb_neq in Hs'. rewrite Hs'. discriminate.
  - intros _. exists i, s. auto.
  - intros _. split; discriminate.
Qed.

Lemma login_run (q : list (string * value)) (st : Store) (w : W) :
  run (login q) st w =
  match encodeURIComponent
          (ToString (or_else (query q "returnTo") (VStr "/"))) with
  | Normal state =>
      (Normal (if authPossible
               then redirect (createAuthorizeURL CLIENT_ID REDIRECT_URI scopes state)
               else send 400 misconfigured_page),
       mkMachine st w [])
  | Thrown e => (Thrown e, mkMachine st w [])
  end.
Proof.
  unfold login, run, bind, lift, ret.
  destruct (encodeURIComponent _); [| reflexivity].
  destruct authPossible; reflexivity.
Qed.

(** X20. Without a client id or a client secret [/login] never redirects: it
    answers 400 with the diagnostic page, which shows the redirect URI
    [http://127.0.0.1:8888/callback]. *)
Theorem login_unconfigured (q : list (string * value)) (st : Store) (w : W) :
  authPossible = false ->
  (forall url, result (run (login q) st w) <> Normal (redirect url))
  /\ (forall state,
        encodeURIComponent (ToString (or_else (query q "returnTo") (VStr "/")))
        = Normal state ->
        result (run (login q) st w) = Normal (send 400 misconfigured_page))
  /\ exists before after,
       misconfigured_page
       = (before ++ "http://127.0.0.1:8888/callback" ++ after)%string.
Proof.
  intros Hconf. rewrite login_run, Hconf. split; [| split].
  - intros url. destruct (encodeURIComponent _); discriminate.
  - intros state ->. reflexivity.
  - eexists. eexists. unfold misconfigured_page, REDIRECT_URI. cbn.
    match goal with
    | |- ?page = _ =>
        let pre := eval vm_compute in (substring 0 653 page) in
        let post := eval vm_compute in (substring 683 (String.length page) page) in
        instantiate (1 := post); instantiate (1 := pre)
    end.
    vm_compute. reflexivity.
Qed.

(** X21. With both set, [/login] redirects to the authorize URL built with the
    four scopes and, as state, the encoded [returnTo]; a missing or empty
    [returnTo] stands for ["/"]. *)
Theorem login_redirects_with_encoded_return_path (q : list (string * value))
    (st : Store) (w : W) (state : string) :
  authPossible = true ->
  let returnTo := query q "returnTo" in
  encodeURIComponent (if truthy returnTo then ToString returnTo else "/"%string)
  = Normal state ->
  run (login q) st w
  = (Normal (redirect
       (createAuthorizeURL CLIENT_ID "http://127.0.0.1:8888/callback"
          ["user-read-playback-state"; "user-read-currently-playing";
           "user-modify-playback-state"; "user-read-private"]%string
          state)),
     mkMachine st w []).
Proof.
  intros Hconf returnTo Hstate. subst returnTo. rewrite login_run.
  unfold or_else. destruct (truthy (query q "returnTo")); cbn [ToString] in *;
    rewrite Hstate, Hconf; reflexivity.
Qed.

End LoginProperties.

(** ** The playback controls *)

Section ControlProperties.

Context {RT : Runtime} {W : Type} {WD : World W} {PL : Player W}.

Lemma control_run (route : string) (call : value -> W -> settled * W)
    (st : Store) (w : W) :
  run (control route call) st w =
  let '(st1, w1, d1) := refresh_outcome st w in
  let token := accessToken st1 in
  if truthy token then
    let (answer, w2) := call token w1 in
    match answer with
    | Resolved => (Normal success, mkMachine st1 w2 d1)
    | Rejected r =>
        (Normal (json 500 (VObj [("error", VStr (route ++ " failed"));
                                 ("details", details_of r)])),
         mkMachine st1 w2 (d1 ++ [console_error (route ++ " error") (thrown r)])%list)
    end
  else (Normal not_authenticated, mkMachine st1 w1 d1).
Proof.
  unfold run, control, attempt. rewrite refresh_run.
  destruct (refresh_outcome st w) as [[st1 w1] d1]. cbn [app store world effects].
  destruct (truthy (accessToken st1)); cbn [negb]; [| reflexivity].
  destruct (call (accessToken st1) w1) as [[| r] w2]; reflexivity.
Qed.

Lemma handler_of_control (r : route) :
  handler_of r = control (route_name r) (operation_of r).
Proof. destruct r; reflexivity. Qed.

(** X23. The four controls leave the store as their refresh step leaves it. *)
Theorem controls_write_only_through_refresh (r : route) (st : Store) (w : W) :
  final (run (handler_of r) st w) = final (run refreshAccessTokenIfNeeded st w).
Proof.
  rewrite handler_of_control, control_run, refresh_final.
  destruct (refresh_outcome st w) as [[st1 w1] d1]. cbv zeta.
  destruct (truthy (accessToken st1)); [| reflexivity].
  destruct (operation_of r _ _) as [[| rej] w2]; reflexivity.
Qed.

(** X24. A control request that finds no access token once the refresh step is
    over is answered 401 like [/now-playing], and ends where the refresh
    step ended: the world has not moved since, nothing more is logged. *)
Theorem control_unauthenticated (r : route) (st : Store) (w : W) :
  truthy (accessToken (final (run refreshAccessTokenIfNeeded st w))) = false ->
  run (handler_of r) st w
  = (Normal (json 401 (VObj [("error", VStr "Not authenticated. Visit /login");
                             ("auth_possible", VBool authPossible)])),
     snd (run refreshAccessTokenIfNeeded st w)).
Proof.
  rewrite handler_of_control, control_run, refresh_final.
  unfold run. rewrite refresh_run.
  destruct (refresh_outcome st w) as [[st1 w1] d1]. cbn [fst snd].
  intros ->. reflexivity.
Qed.

(** X25. With a token, a control call the provider accepts is answered
    [{success: true}], and nothing is written to the console beyond what
    the refresh step wrote. *)
Theorem control_success (r : route) (st : Store) (w : W) :
  let refreshed := snd (run refreshAccessTokenIfNeeded st w) in
  let token := accessToken (store refreshed) in
  truthy token = true ->
  fst (operation_of r token (world refreshed)) = Resolved ->
  result (run (handler_of r) st w)
  = Normal (json 200 (VObj [("success", VBool true)]))
  /\ trace (run (handler_of r) st w) = effects refreshed.
Proof.
  cbv zeta. rewrite handler_of_control, control_run.
  unfold run. rewrite refresh_run.
  destruct (refresh_outcome st w) as [[st1 w1] d1]. cbn [snd store world effects].
  intros -> Hcall.
  destruct (operation_of r _ _) as [answer w2]. cbn [fst] in Hcall. subst answer.
  split; reflexivity.
Qed.

(** X26. A control call the provider rejects is answered 500 with the route in
    [error] and, as [details], the body of the error when it has one, else
    its message when it has one, else its string; [details] is truthy
    for every error that has a name.  The error is logged under the
    route. *)
Theorem control_failure_details (r : route) (st : Store) (w : W)
    (rejection : Rejection) :
  let refreshed := snd (run refreshAccessTokenIfNeeded st w) in
  let token := accessToken (store refreshed) in
  truthy token = true ->
  fst (operation_of r token (world refreshed)) = Rejected rejection ->
  exists details,
    result (run (handler_of r) st w)
    = Normal (json 500 (VObj [("error", VStr (route_name r ++ " failed"));
                              ("details", details)]))
    /\ In (console_error (route_name r ++ " error") (thrown rejection))
          (trace (run (handler_of r) st w))
    /\ (truthy (thrown_body rejection) = true -> details = thrown_body rejection)
    /\ (truthy (thrown_body rejection) = false ->
        message (thrown rejection) <> EmptyString ->
        details = VStr (message (thrown rejection)))
    /\ (truthy (thrown_body rejection) = false ->
        message (thrown rejection) = EmptyString ->
        details = VStr (name (thrown rejection)))
    /\ (name (thrown rejection) <> EmptyString -> truthy details = true).
Proof.
  cbv zeta. rewrite handler_of_control, control_run.
  unfold run. rewrite refresh_run.
  destruct (refresh_outcome st w) as [[st1 w1] d1]. cbn [snd store world effects].
  intros -> Hcall.
  destruct (operation_of r _ _) as [answer w2]. cbn [fst] in Hcall. subst answer.
  exists (details_of rejection). split; [reflexivity |].
  split; [unfold trace; cbn [snd effects]; apply in_or_app; right; now left |].
  unfold details_of, or_else.
  destruct (truthy (thrown_body rejection)) eqn:Hbody.
  - repeat split; try discriminate. intros _. exact Hbody.
  - cbn [truthy]. unfold error_to_string.
    destruct (message (thrown rejection) =? EmptyString)%string eqn:Hmsg;
      cbn [negb].
    + apply String.eqb_eq in Hmsg.
      destruct (name (thrown rejection) =? EmptyString)%string eqn:Hname.
      * apply String.eqb_eq in Hname. rewrite Hmsg, Hname.
        repeat split; try discriminate; try congruence.
      * repeat split; try discriminate; try congruence.
        intros _. cbn [truthy]. now rewrite Hname.
    + apply String.eqb_neq in Hmsg.
      repeat split; try discriminate; try congruence.
      intros _. apply (truthy_nonempty _ Hmsg).
Qed.

End ControlProperties.

(** * Runs on the sample platform *)

Section Runs.

#[local] Existing Instance Sample.node.
#[local] Existing Instance Sample.scripted.

Example truthy_empty_string : truthy (VStr EmptyString) = false.
Proof. reflexivity. Qed.

Example ToString_array :
  ToString (VArr [VStr "a"; VNull; VNum (Int 12)]) = "a,,12"%string.
Proof. reflexivity. Qed.

Example error_to_string_named :
  error_to_string Sample.unauthorized =
  "WebapiRegularError: An error occurred while communicating with Spotify's Web API."%string.
Proof. reflexivity. Qed.

Example decode_escaped_url :
  Sample.decode_uri_component "https%3A%2F%2Fevil.example%2Fx"
  = Normal "https://evil.example/x"%string.
Proof. reflexivity. Qed.

Example decode_truncated_escape :
  Sample.decode_uri_component "%E0%A4%A" = Thrown Sample.URIError.
Proof. reflexivity. Qed.

Example decode_overlong_sequence :
  Sample.decode_uri_component "%C0%AF" = Thrown Sample.URIError.
Proof. reflexivity. Qed.

(** The callback stores what the provider issued and the expiry
    [Date.now() + 3600 * 1000], read after the exchange. *)
Example callback_stores_credentials :
  final (run (callback [("code", VStr "AQBcode")]) initial_store (Sample.quiet 1000))
  = mkStore (VStr "BQDaccess") (VStr "AQDrefresh") (VStr "AQDrefresh")
      (Int 3601040).
Proof. reflexivity. Qed.

(** A decoded state that starts with two slashes passes the check as
    well. *)
Example callback_double_slash_state :
  result (run (callback [("code", VStr "AQBcode");
                         ("state", VStr "%2F%2Fevil.example%2Fx")])
            initial_store (Sample.quiet 1000))
  = Normal (redirect "//evil.example/x").
Proof. reflexivity. Qed.

Example callback_without_code :
  result (run (callback [("state", VStr "%2Fdashboard")]) initial_store
            (Sample.quiet 1000))
  = Normal (send 400 "Missing code").
Proof. reflexivity. Qed.

Example callback_exchange_rejected :
  result (run (callback [("code", VStr "AQBcode")]) initial_store
            (Sample.offline 1000 [] (Normal Sample.playing)))
  = Normal (send 500 "Auth error").
Proof. reflexivity. Qed.

(** A refresh that succeeds replaces the access token and the expiry. *)
Example refresh_replaces_access_token :
  final (run refreshAccessTokenIfNeeded
           (mkStore (VStr "BQDstale") (VStr "AQDrefresh") (VStr "AQDrefresh")
              (Int 3600000))
           (Sample.quiet 3590000))
  = mkStore (VStr "BQDaccess") (VStr "AQDrefresh") (VStr "AQDrefresh")
      (Int 7190040).
Proof. reflexivity. Qed.

(** After a refresh that failed the request goes on with the token it
    had. *)
Example stale_token_is_still_used :
  trace (run now_playing Sample.authenticated
           (Sample.offline 3600000 [] (Normal Sample.no_content)))
  = [called OpRefresh (VStr "AQDrefresh") (Thrown Sample.unauthorized);
     console_error "Failed to refresh token:" Sample.unauthorized;
     called OpPlaybackState (VStr "BQDaccess") (Normal Sample.no_content)].
Proof. reflexivity. Qed.

(** With no local file the canvas comes from [canvas.json]. *)
Example now_playing_with_mapped_canvas :
  result (run now_playing Sample.authenticated
            (Sample.offline 1000
               [(Sample.canvas_json_path, Normal Sample.canvas_json)]
               (Normal Sample.playing)))
  = Normal (json 200
      (set_canvas_url Sample.projected
         (VStr "https://cdn.example/canvas/rick.mp4"))).
Proof. reflexivity. Qed.

(** An answer with an empty object as body and its status under
    [statusCode] is projected like any other: the test of line 176 reads
    [data.body] and [data.status]. *)
Example now_playing_empty_body_object :
  result (run now_playing Sample.authenticated
            (Sample.offline 1000 []
               (Normal (VObj [("body", VObj []); ("statusCode", VNum (Int 204))]))))
  = Normal (json 200 (VObj [("is_playing", VBool false);
                            ("progress_ms", VNum (Int 0));
                            ("timestamp", VNum (Int 1040));
                            ("item", VNull)])).
Proof. reflexivity. Qed.

(** A payload whose track has no [artists] makes the projection throw:
    the request is answered 500 with the [TypeError]. *)
Example now_playing_malformed_track :
  result (run now_playing Sample.authenticated
            (Sample.offline 1000 []
               (Normal (VObj [("body", VObj [("item", VObj [("id", VStr "x")])])]))))
  = Normal (failed (TypeError "Cannot read properties of undefined (reading 'map')")).
Proof. reflexivity. Qed.

End Runs.

(** * The properties on the sample platform *)

#[local] Existing Instance Sample.node.
#[local] Existing Instance Sample.scripted.

Lemma refresh_is_noop_without_refresh_token_witness :
  run refreshAccessTokenIfNeeded initial_store (Sample.quiet 1000)
  = (Normal tt, mkMachine initial_store (Sample.quiet 1000) []).
Proof.
  apply refresh_is_noop_without_refresh_token. reflexivity.
Defined.

Lemma refresh_called_iff_token_held_and_due_witness :
  performed OpRefresh
    (trace (run refreshAccessTokenIfNeeded Sample.authenticated (Sample.quiet 3570000)))
  = true
  /\ performed OpRefresh
       (trace (run refreshAccessTokenIfNeeded Sample.authenticated (Sample.quiet 3569999)))
     = false.
Proof.
  split.
  - apply (refresh_called_iff_token_held_and_due
             Sample.authenticated (Sample.quiet 3570000) 3600000 eq_refl);
      [reflexivity | cbn; lia].
  - apply (refresh_called_iff_token_held_and_due
             Sample.authenticated (Sample.quiet 3569999) 3600000 eq_refl).
    cbn; lia.
Defined.

Lemma failed_refresh_is_absorbed_witness :
  result (run refreshAccessTokenIfNeeded Sample.authenticated
            Sample.unreachable_at_expiry) = Normal tt
  /\ final (run refreshAccessTokenIfNeeded Sample.authenticated
              Sample.unreachable_at_expiry)
     = Sample.authenticated.
Proof.
  destruct (failed_refresh_is_absorbed Sample.authenticated
              Sample.unreachable_at_expiry
              (VStr "AQDrefresh") Sample.unauthorized)
    as (Hresult & _ & _ & _ & _ & Hstore).
  - left. reflexivity.
  - split; [exact Hresult | apply Hstore; reflexivity].
Defined.

Lemma callback_redirect_is_internal_path_witness :
  result (run (callback [("code", VStr "AQBcode");
                         ("state", VStr "https%3A%2F%2Fevil.example%2Fx")])
            initial_store (Sample.quiet 1000))
  = Normal (redirect "/")
  /\ result (run (callback [("code", VStr "AQBcode");
                            ("state", VStr "%2Fdashboard")])
               initial_store (Sample.quiet 1000))
     = Normal (redirect "/dashboard").
Proof.
  split.
  - refine (proj1 (proj2 (proj2
      (callback_redirect_is_internal_path _ initial_store (Sample.quiet 1000)
         Sample.token_response _ _ _))) _); reflexivity.
  - refine (proj2 (proj2 (proj2
      (callback_redirect_is_internal_path _ initial_store (Sample.quiet 1000)
         Sample.token_response _ _ _))) _); reflexivity.
Defined.

Lemma callback_survives_malformed_state_witness :
  result (run (callback [("code", VStr "AQBcode"); ("state", VStr "%E0%A4%A")])
            initial_store (Sample.quiet 1000))
  = Normal (redirect "/").
Proof.
  apply (callback_survives_malformed_state _ initial_store (Sample.quiet 1000)
           Sample.token_response Sample.URIError); reflexivity.
Defined.

Lemma now_playing_unauthenticated_witness :
  result (run now_playing initial_store (Sample.quiet 1000))
  = Normal (json 401 (VObj [("error", VStr "Not authenticated. Visit /login");
                            ("auth_possible", VBool true)]))
  /\ result (run (now_playing (RT := Sample.runtime Sample.unconfigured))
               initial_store (Sample.quiet 1000))
     = Normal (json 401 (VObj [("error", VStr "Not authenticated. Visit /login");
                               ("auth_possible", VBool false)])).
Proof.
  split.
  - exact (proj1 (now_playing_unauthenticated initial_store (Sample.quiet 1000)
                    eq_refl)).
  - exact (proj1 (now_playing_unauthenticated
                    (RT := Sample.runtime Sample.unconfigured)
                    initial_store (Sample.quiet 1000) eq_refl)).
Defined.





Lemma canvas_json_failure_is_absorbed_witness :
  (exists is_playing progress_ms timestamp,
     result (run now_playing Sample.authenticated Sample.broken_mapping)
     = Normal (json 200 (VObj [("is_playing", is_playing);
                               ("progress_ms", progress_ms);
                               ("timestamp", timestamp);
                               ("item", item_of Sample.projected)])))
  /\ (exists is_playing progress_ms timestamp,
        result (run now_playing Sample.authenticated Sample.unreadable_mapping)
        = Normal (json 200 (VObj [("is_playing", is_playing);
                                  ("progress_ms", progress_ms);
                                  ("timestamp", timestamp);
                                  ("item", item_of Sample.projected)]))).
Proof.
  split.
  - apply (canvas_json_failure_is_absorbed Sample.authenticated
             Sample.broken_mapping (VStr "BQDaccess") Sample.playing
             (VObj [("is_playing", VBool true);
                    ("progress_ms", VNum (Int 1000));
                    ("item", Sample.track)])
             VUndefined Sample.track (item_of Sample.projected)
             (mkError "SyntaxError" "Unexpected token in JSON")).
    + left. reflexivity.
    + reflexivity.
    + reflexivity.
    + reflexivity.
    + reflexivity.
    + reflexivity.
    + reflexivity.
    + reflexivity.
    + reflexivity.
    + reflexivity.
    + reflexivity.
    + right. exists "{oops"%string. split; reflexivity.
  - apply (canvas_json_failure_is_absorbed Sample.authenticated
             Sample.unreadable_mapping (VStr "BQDaccess") Sample.playing
             (VObj [("is_playing", VBool true);
                    ("progress_ms", VNum (Int 1000));
                    ("item", Sample.track)])
             VUndefined Sample.track (item_of Sample.projected)
             (mkError "Error" "EACCES: permission denied, open")).
    + left. reflexivity.
    + reflexivity.
    + reflexivity.
    + reflexivity.
    + reflexivity.
    + reflexivity.
    + reflexivity.
    + reflexivity.
    + reflexivity.
    + reflexivity.
    + reflexivity.
    + left. reflexivity.
Defined.

(** * The further properties on the sample platform *)

#[local] Existing Instance Sample.authorize.

Lemma callback_stores_grant_witness :
  final (run (callback [("code", VStr "AQBcode")]) initial_store (Sample.quiet 1000))
  = mkStore (VStr "BQDaccess") (VStr "AQDrefresh") (VStr "AQDrefresh") (Int 3601040).
Proof.
  destruct (callback_stores_grant [("code", VStr "AQBcode")] initial_store
              (Sample.quiet 1000) (Sample.elapse (Sample.quiet 1000))
              Sample.token_response (VStr "BQDaccess") (VStr "AQDrefresh")
              (VNum (Int 3600)))
    as (Haccess & Hcopy & Hstored & Hexpiry);
    [reflexivity | reflexivity | reflexivity |].
  specialize (Hexpiry 3600 eq_refl).
  destruct (final _) as [a r R x]. cbn in *. now subst.
Defined.

Lemma granted_credential_is_not_refreshed_early_witness :
  run refreshAccessTokenIfNeeded
    (final (run (callback [("code", VStr "AQBcode")]) initial_store (Sample.quiet 1000)))
    (Sample.quiet 3571039)
  = (Normal tt,
     mkMachine
       (final (run (callback [("code", VStr "AQBcode")]) initial_store (Sample.quiet 1000)))
       (Sample.quiet 3571039) []).
Proof.
  apply (granted_credential_is_not_refreshed_early [("code", VStr "AQBcode")]
           initial_store (Sample.quiet 1000) (Sample.elapse (Sample.quiet 1000))
           (Sample.quiet 3571039) Sample.token_response
           (VStr "BQDaccess") (VStr "AQDrefresh") 3600);
    try reflexivity.
Defined.

Lemma successful_refresh_replaces_access_token_witness :
  final (run refreshAccessTokenIfNeeded Sample.authenticated (Sample.rotating 3590000))
  = mkStore (VStr "BQDnext") (VStr "AQDrefresh") (VStr "AQDrefresh") (Int 7190040).
Proof.
  destruct (successful_refresh_replaces_access_token Sample.authenticated
              (Sample.rotating 3590000) (VStr "AQDrefresh") Sample.rotated_response
              (VStr "BQDnext") (VNum (Int 3600)))
    as (Haccess & Hcopy & Hstored & Hexpiry).
  - left. reflexivity.
  - reflexivity.
  - specialize (Hexpiry 3600 eq_refl).
    destruct (final _) as [a r R x]. cbn in *. now subst.
Defined.

Lemma refreshed_credential_is_not_refreshed_early_witness :
  run refreshAccessTokenIfNeeded
    (final (run refreshAccessTokenIfNeeded Sample.authenticated (Sample.rotating 3590000)))
    (Sample.rotating 3590040)
  = (Normal tt,
     mkMachine
       (final (run refreshAccessTokenIfNeeded Sample.authenticated (Sample.rotating 3590000)))
       (Sample.rotating 3590040) []).
Proof.
  apply (refreshed_credential_is_not_refreshed_early Sample.authenticated
           (Sample.rotating 3590000) (Sample.rotating 3590040)
           (VStr "AQDrefresh") Sample.rotated_response (VStr "BQDnext") 3600).
  - left. reflexivity.
  - reflexivity.
  - reflexivity.
Defined.

Lemma now_playing_defaults_witness :
  exists is_playing progress_ms timestamp,
    result (run now_playing Sample.authenticated
              (Sample.offline 1000 [] (Normal Sample.idle)))
    = Normal (json 200 (VObj [("is_playing", is_playing);
                              ("progress_ms", progress_ms);
                              ("timestamp", VNum (Int timestamp));
                              ("item", VNull)]))
    /\ is_playing = VBool false /\ progress_ms = VNum (Int 0).
Proof.
  destruct (now_playing_defaults Sample.authenticated
              (Sample.offline 1000 [] (Normal Sample.idle))
              (VStr "BQDaccess") Sample.idle
              (VObj [("device", VObj [("is_active", VBool true)])]) VUndefined)
    as (is_playing & progress_ms & timestamp & Hanswer & Hplaying & Hprogress).
  - left. reflexivity.
  - reflexivity.
  - reflexivity.
  - reflexivity.
  - reflexivity.
  - exists VUndefined. split; reflexivity.
  - exists is_playing, progress_ms, timestamp. split; [exact Hanswer |].
    split; [exact (Hplaying VUndefined eq_refl) | exact (Hprogress VUndefined eq_refl)].
Defined.


Lemma malformed_track_is_reported_witness :
  exists msg,
    result (run now_playing Sample.authenticated
              (Sample.offline 1000 [] (Normal Sample.without_artists)))
    = Normal (failed (TypeError msg)).
Proof.
  apply (malformed_track_is_reported Sample.authenticated
           (Sample.offline 1000 [] (Normal Sample.without_artists))
           (VStr "BQDaccess") Sample.without_artists
           (VObj [("is_playing", VBool true);
                  ("item", VObj [("id", VStr "4uLU6hMCjMI75M1A2tKUQC");
                                 ("name", VStr "Never Gonna Give You Up")])])
           VUndefined
           (VObj [("id", VStr "4uLU6hMCjMI75M1A2tKUQC");
                  ("name", VStr "Never Gonna Give You Up")])
           VUndefined);
    try reflexivity.
  - left. reflexivity.
  - discriminate.
Defined.

Lemma canvas_absent_without_assets_witness :
  canvas_detection Sample.projected
    (mkMachine Sample.authenticated Sample.null_mapping [])
  = (Normal Sample.projected,
     mkMachine Sample.authenticated Sample.null_mapping []).
Proof.
  apply (canvas_absent_without_assets Sample.projected
           (mkMachine Sample.authenticated Sample.null_mapping [])).
  - reflexivity.
  - reflexivity.
  - right. exists "null"%string, VNull. repeat split. now left.
Defined.

Lemma no_track_no_canvas_witness :
  canvas_detection
    (VObj [("is_playing", VBool false); ("progress_ms", VNum (Int 0));
           ("timestamp", VNum (Int 1040)); ("item", VNull)])
    (mkMachine Sample.authenticated Sample.webm_and_mapping [])
  = (Normal (VObj [("is_playing", VBool false); ("progress_ms", VNum (Int 0));
                   ("timestamp", VNum (Int 1040)); ("item", VNull)]),
     mkMachine Sample.authenticated Sample.webm_and_mapping []).
Proof.
  apply no_track_no_canvas. reflexivity.
Defined.

Lemma login_unconfigured_witness :
  result (run (login (RT := Sample.runtime Sample.unconfigured)
                 [("returnTo", VStr "/dashboard")])
            initial_store (Sample.quiet 1000))
  = Normal (send 400 misconfigured_page).
Proof.
  refine (proj1 (proj2 (login_unconfigured (RT := Sample.runtime Sample.unconfigured)
                          [("returnTo", VStr "/dashboard")]
                          initial_store (Sample.quiet 1000) eq_refl))
            "%2Fdashboard"%string eq_refl).
Defined.

Lemma login_redirects_with_encoded_return_path_witness :
  result (run (login []) initial_store (Sample.quiet 1000))
  = Normal (redirect
      (Sample.authorize_url (VStr "0123456789abcdef0123456789abcdef")
         "http://127.0.0.1:8888/callback"
         ["user-read-playback-state"; "user-read-currently-playing";
          "user-modify-playback-state"; "user-read-private"]%string
         "%2F")).
Proof.
  rewrite (login_redirects_with_encoded_return_path [] initial_store
             (Sample.quiet 1000) "%2F"); reflexivity.
Defined.

Lemma control_unauthenticated_witness :
  result (run (handler_of (PL := Sample.player Resolved) Play)
            initial_store (Sample.quiet 1000))
  = Normal (json 401 (VObj [("error", VStr "Not authenticated. Visit /login");
                            ("auth_possible", VBool true)])).
Proof.
  rewrite (control_unauthenticated (PL := Sample.player Resolved) Play
             initial_store (Sample.quiet 1000)); reflexivity.
Defined.

Lemma control_success_witness :
  result (run (handler_of (PL := Sample.player Resolved) Pause)
            Sample.authenticated (Sample.quiet 1000))
  = Normal (json 200 (VObj [("success", VBool true)])).
Proof.
  apply (control_success (PL := Sample.player Resolved) Pause
           Sample.authenticated (Sample.quiet 1000)); reflexivity.
Defined.

Lemma control_failure_details_witness :
  result (run (handler_of (PL := Sample.player (Rejected Sample.no_device)) Next)
            Sample.authenticated (Sample.quiet 1000))
  = Normal (json 500 (VObj [("error", VStr "next failed");
                            ("details", thrown_body Sample.no_device)]))
  /\ result (run (handler_of (PL := Sample.player (Rejected Sample.connection_refused))
                    Previous)
               Sample.authenticated (Sample.quiet 1000))
     = Normal (json 500 (VObj [("error", VStr "previous failed");
                               ("details", VStr "connect ECONNREFUSED")])).
Proof.
  split.
  - destruct (control_failure_details (PL := Sample.player (Rejected Sample.no_device))
                Next Sample.authenticated (Sample.quiet 1000) Sample.no_device)
      as (details & Hanswer & _ & Hbody & _); [reflexivity | reflexivity |].
    rewrite Hanswer, (Hbody eq_refl). reflexivity.
  - destruct (control_failure_details
                (PL := Sample.player (Rejected Sample.connection_refused))
                Previous Sample.authenticated (Sample.quiet 1000)
                Sample.connection_refused)
      as (details & Hanswer & _ & _ & Hmessage & _); [reflexivity | reflexivity |].
    rewrite Hanswer, (Hmessage eq_refl); [reflexivity | discriminate].
Defined.

Lemma reachable_in_sync_witness :
  in_sync (final (run (callback [("code", VStr "AQBcode")]) initial_store
                    (Sample.quiet 1000))).
Proof.
  apply reachable_in_sync.
  eapply reachable_step; [apply reachable_initial | apply step_callback].
Defined.

Lemma reachable_unauthenticated_witness :
  result (run (now_playing (WD := Sample.steady)) initial_store 1000)
  = Normal (not_authenticated (RT := Sample.node)).
Proof.
  apply (reachable_unauthenticated (WD := Sample.steady)).
  - intros code w data access refresh expiresIn [= <-] [= <- _ _]. reflexivity.
  - intros sent w data access expiresIn [= <-] [= <- _]. reflexivity.
  - apply reachable_initial.
  - reflexivity.
Defined.
